(** * Token dashboard: the retrieval and metrics core

    A shallow embedding of the token-analysis core of the dashboard:
    - [hooks/useTokenData.ts]: endpoint failover ([tryConnectToNetwork]),
      the block resolver ([getBlockWithRetries]), the transfer classifier
      ([isLargeTransferCheck]), event post-processing
      ([processTransferEvents]) and the orchestration ([fetchTokenData]);
    - [utils/tokenUtils.ts]: [getTokenInfo], [isLargeTransfer] and the
      market-metric calculators;
    - [constants/networks.ts]: the endpoint table and [getRpcUrl].

    JavaScript numbers that hold fractional quantities (prices, caps,
    volumes) are IEEE-754 binary64 values, modelled by Rocq's primitive
    floats.  Block numbers, timestamps and chain identifiers are integers
    far below 2^53, where binary64 arithmetic is exact; they are modelled
    by [Z].  Arbitrary-precision [BigNumber]s are [Z].

    Remote calls, [Math.random] and [Date.now] are answered by an oracle
    ([Rpc.Remote]) indexed by a logical clock, so that the same call may be
    answered differently at different times; every remote call is recorded
    in a log.  A rejected promise and a fired [withTimeout] timer are the
    same event for the caller, a thrown error.  The code is asynchronous
    but runs its awaits one after another; the only parallel step, the
    resolution of a batch of blocks under [Promise.allSettled], is taken in
    index order (the blocks of a batch are distinct keys of the cache).
    Console output is not modelled. *)

From Stdlib Require Import ZArith Lia Ascii String PrimFloat Sorted.
From Stdlib Require Import Floats.FloatOps Floats.SpecFloat.
From stdpp Require Import base option list gmap strings pretty.
From Equations Require Import Equations.

Set Warnings "-inexact-float".

Local Open Scope Z_scope.

(** ** JavaScript numbers *)

Module JS.

(** The binary64 value nearest to [n / d] (ties to even): the value
    [parseFloat] yields on a decimal literal denoting [n / d]. *)
Definition of_ratio (n : Z) (d : positive) : float :=
  match n with
  | Z0 => 0%float
  | Zpos m => SF2Prim (SFdiv prec emax (S754_finite false m 0) (S754_finite false d 0))
  | Zneg m => SF2Prim (SFdiv prec emax (S754_finite true m 0) (S754_finite false d 0))
  end.

(** An integer as a JavaScript number. *)
Definition of_Z (n : Z) : float := of_ratio n 1.

(** [x % 10 === 0]: the remainder is exact, so the test holds when [x]
    is zero or a finite integer multiple of ten. *)
Definition rem10_is_zero (x : float) : bool :=
  match Prim2SF x with
  | S754_zero _ => true
  | S754_finite _ m e =>
      if 0 <=? e then (Z.pos m * 2 ^ e) mod 10 =? 0
      else (Z.pos m mod 2 ^ (- e) =? 0) && ((Z.pos m / 2 ^ (- e)) mod 10 =? 0)
  | _ => false
  end.

(** [Number.isFinite]. *)
Definition isFinite (x : float) : bool := negb (is_nan x || is_infinity x).

End JS.

(** ** The parts of ethers v5 the code relies on *)

Module Ethers.

Definition decimalDigit (c : ascii) : option Z :=
  let n := Z.of_N (N_of_ascii c) in
  if (48 <=? n) && (n <=? 57) then Some (n - 48) else None.

Definition hexDigit (c : ascii) : option Z :=
  let n := Z.of_N (N_of_ascii c) in
  if (48 <=? n) && (n <=? 57) then Some (n - 48)
  else if (97 <=? n) && (n <=? 102) then Some (n - 87)
  else if (65 <=? n) && (n <=? 70) then Some (n - 55)
  else None.

Fixpoint parseDigits (base : Z) (digit : ascii -> option Z) (s : string) (acc : Z)
  : option Z :=
  match s with
  | EmptyString => Some acc
  | String c rest =>
      match digit c with
      | Some d => parseDigits base digit rest (acc * base + d)
      | None => None
      end
  end.

(** A non-empty run of digits. *)
Definition parseNumber (base : Z) (digit : ascii -> option Z) (s : string) : option Z :=
  match s with
  | EmptyString => None
  | _ => parseDigits base digit s 0
  end.

Definition parseUnsigned (s : string) : option Z :=
  match s with
  | String "0"%char (String "x"%char rest) => parseNumber 16 hexDigit rest
  | String "0"%char (String "X"%char rest) => parseNumber 16 hexDigit rest
  | _ => parseNumber 10 decimalDigit s
  end.

(** [BigNumber.from(s)] on a string: [-?0x[0-9a-f]+] (any case) or
    [-?[0-9]+]; anything else throws, which is [None] here. *)
Definition BigNumber_from (s : string) : option Z :=
  match s with
  | String "-"%char rest => Z.opp <$> parseUnsigned rest
  | _ => parseUnsigned s
  end.

(** [bn.toString()]. *)
Definition BigNumber_toString (z : Z) : string := pretty z.

(** [bn.toNumber()]: throws once the magnitude needs more than 53 bits. *)
Definition toNumber (z : Z) : option Z :=
  if Z.abs z <? 2 ^ 53 then Some z else None.

(** [formatUnits(value, decimals)] prints the exact decimal expansion of
    [value / 10^decimals]; the string is represented by that fraction.
    It throws on an unparsable value or when [decimals] is not an
    integer in 0..256. *)
Definition formatUnits (value : string) (decimals : Z) : option (Z * positive) :=
  v ← BigNumber_from value;
  if (0 <=? decimals) && (decimals <=? 256)
  then Some (v, Z.to_pos (10 ^ decimals))
  else None.

Definition formatEther (value : string) : option (Z * positive) :=
  formatUnits value 18.

(** [parseFloat] on the output of [formatUnits]. *)
Definition parseFloat (d : Z * positive) : float := JS.of_ratio (fst d) (snd d).

End Ethers.

(** ** constants/networks.ts *)

Module Networks.

Record Chain := { id : Z; rpcUrl : string }.

Definition SUPPORTED_CHAINS : list Chain :=
  [ {| id := 1; rpcUrl := "https://mainnet.infura.io/v3/9aa3d95b3bc440fa88ea12eaa4456161" |};
    {| id := 5; rpcUrl := "https://goerli.infura.io/v3/9aa3d95b3bc440fa88ea12eaa4456161" |};
    {| id := 11155111; rpcUrl := "https://sepolia.infura.io/v3/9aa3d95b3bc440fa88ea12eaa4456161" |};
    {| id := 137; rpcUrl := "https://polygon-mainnet.g.alchemy.com/v2/demo" |};
    {| id := 80001; rpcUrl := "https://polygon-mumbai.g.alchemy.com/v2/demo" |};
    {| id := 56; rpcUrl := "https://bsc-dataseed.binance.org" |};
    {| id := 43114; rpcUrl := "https://api.avax.network/ext/bc/C/rpc" |};
    {| id := 42161; rpcUrl := "https://arb1.arbitrum.io/rpc" |};
    {| id := 10; rpcUrl := "https://mainnet.optimism.io" |} ].

(** [chain?.rpcUrl || 'https://rpc.ankr.com/eth'] *)
Definition getRpcUrl (chainId : Z) : string :=
  match List.find (fun c => id c =? chainId) SUPPORTED_CHAINS with
  | Some c => if String.eqb (rpcUrl c) "" then "https://rpc.ankr.com/eth" else rpcUrl c
  | None => "https://rpc.ankr.com/eth"
  end.

End Networks.

(** ** types/token.ts *)

Module Token.

Record TokenInfo := {
  address : string;
  name : string;
  symbol : string;
  decimals : Z;
  totalSupply : string;
  isERC20Compliant : bool;
  chainId : Z
}.

Record TokenTransfer := {
  transactionHash : string;
  from : string;
  to : string;
  value : string;
  timestamp : Z;
  isLargeTransfer : bool
}.

Record TokenMarketData := {
  price : float;
  marketCap : float;
  fullyDilutedCap : option float;
  marketCapDifference : option float;
  marketCapDifferencePercent : option float;
  offMarketSalesAbove : option float;
  offMarketSalesBelow : option float;
  offMarketSalesPercentage : option float
}.

Record TokenMetrics := {
  tokenInfo : TokenInfo;
  marketData : option TokenMarketData;
  recentTransfers : list TokenTransfer;
  largeTransfers : list TokenTransfer
}.

End Token.

(** ** The remote data service and the process-wide state *)

Module Rpc.

(** The fields of [ethers.providers.Block] the code reads or writes. *)
Record Block := { hash : string; number : Z; timestamp : Z }.

(** A decoded [Transfer] log entry; [args] is absent when the entry could
    not be decoded into [from, to, value]. *)
Record Event := {
  blockNumber : Z;
  transactionHash : string;
  args : option (string * string * Z)
}.

Inductive BlockTag := Number (n : Z) | Latest.

(** Remote calls, each tagged with the endpoint it is sent to. *)
Inductive Call :=
| GetBlockNumber (url : string)
| GetBlock (url : string) (tag : BlockTag)
| GetNetwork (url : string)
| GetCode (url address : string)
| ContractCall (url address method : string)
| QueryFilter (url address : string) (fromBlock toBlock : Z).

(** The outside world.  The first argument is the logical time of the
    interaction; [None] is a rejected promise or a fired timeout. *)
Record Remote := {
  blockNumberAt : nat -> string -> option Z;
  blockAt : nat -> string -> BlockTag -> option Block;
  networkAt : nat -> string -> option Z;
  codeAt : nat -> string -> string -> option string;
  callStringAt : nat -> string -> string -> string -> option string;
  callNumberAt : nat -> string -> string -> string -> option Z;
  logsAt : nat -> string -> string -> Z -> Z -> option (list Event);
  randomAt : nat -> float;       (* Math.random() *)
  nowAt : nat -> Z;              (* Date.now(), milliseconds *)
  timerFiresAt : nat -> bool     (* a timer racing a multi-call task *)
}.

(** A connected [JsonRpcProvider] is identified by its URL. *)
Definition Provider := string.

End Rpc.

Module Effect.
Import Rpc.

Inductive Error :=
| RpcFailure            (* a remote call rejected or timed out *)
| LibraryError          (* ethers rejected an argument *)
| AllEndpointsFailed    (* tryConnectToNetwork: "Unable to connect to ..." *)
| ConnectionFailed      (* "Failed to connect to network after 3 attempts" *)
| NoProvider            (* "Could not establish network connection" *)
| InvalidAddress        (* "Invalid Ethereum address format" *)
| NotAContract          (* "Address is not a contract" *)
| TimedOut              (* withTimeout around a multi-call task *)
| TokenInfoError        (* what getTokenInfo's handler rethrows *)
| TokenInfoFailed       (* "Failed to retrieve token information: ..." *)
| CurrentBlockFailed.   (* "Failed to get current block: ..." *)

Inductive Result (A : Type) := Ok (a : A) | Throw (e : Error).
Arguments Ok {A} a.
Arguments Throw {A} e.

(** The module-level variables of useTokenData.ts, the logical clock and
    the log of remote calls (oldest first). *)
Record State := {
  clock : nat;
  rpcLog : list Call;
  lastSuccessfulRpcByChain : gmap Z string;
  blockCache : gmap Z Block
}.

Definition M (A : Type) : Type := State -> Result A * State.

Definition ret {A} (a : A) : M A := fun s => (Ok a, s).

Definition bind {A B} (m : M A) (k : A -> M B) : M B :=
  fun s => match m s with
           | (Ok a, s') => k a s'
           | (Throw e, s') => (Throw e, s')
           end.

Definition throw {A} (e : Error) : M A := fun s => (Throw e, s).

(** [try { m } catch (e) { h e }]: effects of [m] before the throw stay. *)
Definition try_catch {A} (m : M A) (h : Error -> M A) : M A :=
  fun s => match m s with
           | (Ok a, s') => (Ok a, s')
           | (Throw e, s') => h e s'
           end.

(** Run [m] and hand its outcome to the caller; never throws. *)
Definition attempt {A} (m : M A) : M (Result A) :=
  fun s => match m s with (r, s') => (Ok r, s') end.

Definition get : M State := fun s => (Ok s, s).

Definition tick (s : State) : State :=
  {| clock := S (clock s); rpcLog := rpcLog s;
     lastSuccessfulRpcByChain := lastSuccessfulRpcByChain s;
     blockCache := blockCache s |}.

Definition logCall (c : Call) (s : State) : State :=
  {| clock := clock s; rpcLog := rpcLog s ++ [c];
     lastSuccessfulRpcByChain := lastSuccessfulRpcByChain s;
     blockCache := blockCache s |}.

Definition setLastSuccessful (chain : Z) (url : string) : M unit :=
  fun s => (Ok tt,
            {| clock := clock s; rpcLog := rpcLog s;
               lastSuccessfulRpcByChain := <[chain := url]> (lastSuccessfulRpcByChain s);
               blockCache := blockCache s |}).

Definition cacheBlock (n : Z) (b : Block) : M unit :=
  fun s => (Ok tt,
            {| clock := clock s; rpcLog := rpcLog s;
               lastSuccessfulRpcByChain := lastSuccessfulRpcByChain s;
               blockCache := <[n := b]> (blockCache s) |}).

(** One remote call: logged, answered at the current time, one tick. *)
Definition remote {A} (c : Call) (answer : nat -> option A) : M A :=
  fun s => let s' := tick (logCall c s) in
           match answer (clock s) with
           | Some a => (Ok a, s')
           | None => (Throw RpcFailure, s')
           end.

(** A local reading of the outside world ([Math.random], [Date.now], a
    timer): one tick, nothing logged. *)
Definition observe {A} (reading : nat -> A) : M A :=
  fun s => (Ok (reading (clock s)), tick s).

(** A pure library call that may throw. *)
Definition lift {A} (o : option A) : M A :=
  match o with Some a => ret a | None => throw LibraryError end.

Declare Scope effect_scope.
Delimit Scope effect_scope with effect.
Notation "'let*' x := m 'in' k" := (bind m (fun x => k))
  (at level 10, x pattern, m at level 100, k at level 200) : effect_scope.
Notation "m >> k" := (bind m (fun _ => k))
  (at level 100, k at level 200, right associativity) : effect_scope.

Section WithRemote.
Context (net : Remote).

Definition getBlockNumber (p : Provider) : M Z :=
  remote (GetBlockNumber p) (fun t => blockNumberAt net t p).
Definition getBlock (p : Provider) (tag : BlockTag) : M Block :=
  remote (GetBlock p tag) (fun t => blockAt net t p tag).
Definition getNetwork (p : Provider) : M Z :=
  remote (GetNetwork p) (fun t => networkAt net t p).
Definition getCode (p : Provider) (addr : string) : M string :=
  remote (GetCode p addr) (fun t => codeAt net t p addr).
Definition callString (p : Provider) (addr method : string) : M string :=
  remote (ContractCall p addr method) (fun t => callStringAt net t p addr method).
Definition callNumber (p : Provider) (addr method : string) : M Z :=
  remote (ContractCall p addr method) (fun t => callNumberAt net t p addr method).
Definition queryFilter (p : Provider) (addr : string) (fromBlock toBlock : Z)
  : M (list Event) :=
  remote (QueryFilter p addr fromBlock toBlock)
         (fun t => logsAt net t p addr fromBlock toBlock).
Definition Math_random : M float := observe (randomAt net).
Definition Date_now : M Z := observe (nowAt net).

(** [withTimeout(task, ms, ...)] around a task made of several calls:
    the task runs (its calls are issued), and the race is lost when
    the timer fires first. *)
Definition withTimeout {A} (task : M A) : M A :=
  (let* r := task in
   let* fired := observe (timerFiresAt net) in
   if fired : bool then throw TimedOut else ret r)%effect.
End WithRemote.

End Effect.

(** ** utils/tokenUtils.ts *)

Module TokenUtils.
Import Rpc Effect Token.
Local Open Scope effect_scope.

Section WithRemote.
Context (net : Remote).
(** [ethers.utils.isAddress]: format and checksum validation. *)
Context (isAddress : string -> bool).

Definition getTokenInfo (tokenAddress : string) (provider : Provider) : M TokenInfo :=
  try_catch
    (if negb (isAddress tokenAddress) then throw InvalidAddress else
     let* chain := getNetwork net provider in
     let* code := getCode net provider tokenAddress in
     if String.eqb code "0x" then throw NotAContract else
     let* name :=
       try_catch (callString net provider tokenAddress "name")
                 (fun _ => ret "Unknown Token") in
     let* symbol :=
       try_catch (callString net provider tokenAddress "symbol")
                 (fun _ => ret "???") in
     let* decimals :=
       try_catch (callNumber net provider tokenAddress "decimals")
                 (fun _ => ret 18) in
     let* totalSupply :=
       try_catch (let* supply := callNumber net provider tokenAddress "totalSupply" in
                  ret (Ethers.BigNumber_toString supply))
                 (fun _ => ret "0") in
     ret {| address := tokenAddress;
            name := name;
            symbol := symbol;
            decimals := decimals;
            totalSupply := totalSupply;
            isERC20Compliant :=
              negb (String.eqb name "") && negb (String.eqb symbol "")
              && negb (String.eqb totalSupply "");
            chainId := chain |})
    (fun _ => throw TokenInfoError).
End WithRemote.

Definition isLargeTransfer (value totalSupply : string) : bool :=
  default false
    (valueBN ← Ethers.BigNumber_from value;
     totalSupplyBN ← Ethers.BigNumber_from totalSupply;
     if totalSupplyBN =? 0 then Some false else
     let thresholdValueBN := Z.quot (totalSupplyBN * 5) 1000 in
     Some (thresholdValueBN <=? valueBN)).

Definition calculateMarketCap (totalSupply : string) (decimals : Z) (price : float)
  : float :=
  match Ethers.formatUnits totalSupply decimals with
  | Some formatted => (Ethers.parseFloat formatted * price)%float
  | None => 0%float
  end.

Definition calculateFullyDilutedCap (totalSupply : string) (decimals : Z)
    (price : float) (maxSupply : option string) : float :=
  let supplyToUse :=
    match maxSupply with
    | Some m => if String.eqb m "" then totalSupply else m
    | None => totalSupply
    end in
  match Ethers.formatUnits supplyToUse decimals with
  | Some formatted => (Ethers.parseFloat formatted * price)%float
  | None => 0%float
  end.

Record CapDifference := { difference : float; percentDifference : float }.

Definition calculateMarketCapDifference (marketCap fullyDilutedCap : float)
  : CapDifference :=
  let difference := (fullyDilutedCap - marketCap)%float in
  {| difference := difference;
     percentDifference :=
       if PrimFloat.ltb 0 marketCap then (difference / marketCap * 100)%float
       else 0%float |}.

Record OffMarketSales := {
  abovePrice : float;
  belowPrice : float;
  percentage : float;
  volumeUSD : float
}.

(** The three accumulators of the [forEach] in [analyzeOffMarketSales]. *)
Record Volumes := {
  totalVolumeTokens : float;
  abovePriceVolume : float;
  belowPriceVolume : float
}.

Section WithRemote.
Context (net : Remote).

Definition isBelowMarketPrice (transfer : TokenTransfer) : M bool :=
  if String.prefix "0x00" (to transfer) then ret true else
  let* valueInEther := lift (Ethers.formatEther (value transfer)) in
  let isRoundNumber := JS.rem10_is_zero (Ethers.parseFloat valueInEther) in
  let* now := Date_now net in
  let isRecentTransfer :=
    PrimFloat.ltb (JS.of_Z now / 1000 - JS.of_Z (Token.timestamp transfer))
                  (60 * 60 * 24) in
  if isRoundNumber && isRecentTransfer
  then let* r := Math_random net in ret (PrimFloat.ltb 0.7 r)
  else let* r := Math_random net in ret (PrimFloat.ltb 0.5 r).

Fixpoint accumulateVolumes (tokenInfo : TokenInfo) (largeTransfers : list TokenTransfer)
    (acc : Volumes) : M Volumes :=
  match largeTransfers with
  | [] => ret acc
  | transfer :: rest =>
      let* formatted := lift (Ethers.formatUnits (value transfer) (decimals tokenInfo)) in
      let transferAmount := Ethers.parseFloat formatted in
      let total := (totalVolumeTokens acc + transferAmount)%float in
      let* isBelowPrice := isBelowMarketPrice transfer in
      accumulateVolumes tokenInfo rest
        (if isBelowPrice : bool
         then {| totalVolumeTokens := total;
                 abovePriceVolume := abovePriceVolume acc;
                 belowPriceVolume := (belowPriceVolume acc + transferAmount)%float |}
         else {| totalVolumeTokens := total;
                 abovePriceVolume := (abovePriceVolume acc + transferAmount)%float;
                 belowPriceVolume := belowPriceVolume acc |})
  end.

Definition analyzeOffMarketSales (transfers : list TokenTransfer)
    (tokenInfo : TokenInfo) (currentPrice : float) : M OffMarketSales :=
  if (length transfers =? 0)%nat || PrimFloat.leb currentPrice 0
  then ret {| abovePrice := 0; belowPrice := 0; percentage := 0; volumeUSD := 0 |}
  else
    let largeTransfers := filter (fun t => Token.isLargeTransfer t = true) transfers in
    let* formattedSupply :=
      lift (Ethers.formatUnits (totalSupply tokenInfo) (decimals tokenInfo)) in
    let totalSupplyTokens := Ethers.parseFloat formattedSupply in
    let* v := accumulateVolumes tokenInfo largeTransfers
                {| totalVolumeTokens := 0; abovePriceVolume := 0;
                   belowPriceVolume := 0 |} in
    let totalVolumeUSD := (totalVolumeTokens v * currentPrice)%float in
    let marketCap :=
      calculateMarketCap (totalSupply tokenInfo) (decimals tokenInfo) currentPrice in
    ret {| abovePrice := (abovePriceVolume v * currentPrice / marketCap * 100)%float;
           belowPrice := (belowPriceVolume v * currentPrice / marketCap * 100)%float;
           percentage := (totalVolumeTokens v / totalSupplyTokens * 100)%float;
           volumeUSD := totalVolumeUSD |}.
End WithRemote.

(** [formatAddress]: addresses of fewer than ten characters (the empty
    one included) are returned as they are; longer ones keep their first
    six and last four characters around an ellipsis. *)
Definition formatAddress (address : string) : string :=
  if String.eqb address "" || (String.length address <? 10)%nat then address
  else String.substring 0 6 address
       +:+ "..."
       +:+ String.substring (String.length address - 4) 4 address.

Section WithRemote.
Context (net : Remote).

(** One of the four probes of [checkERC20Compliance]:
    [try { await contract.f(); } catch { hasF = false; }]. *)
Definition hasFunction {A} (call : M A) : M bool :=
  try_catch (let* _ := call in ret true) (fun _ => ret false).

Definition checkERC20Compliance (tokenAddress : string) (provider : Provider) : M bool :=
  try_catch
    (let* code := getCode net provider tokenAddress in
     if String.eqb code "0x" then ret false else
     let* hasName := hasFunction (callString net provider tokenAddress "name") in
     let* hasSymbol := hasFunction (callString net provider tokenAddress "symbol") in
     let* hasDecimals := hasFunction (callNumber net provider tokenAddress "decimals") in
     let* hasTotalSupply :=
       hasFunction (callNumber net provider tokenAddress "totalSupply") in
     ret (hasName && hasSymbol && hasDecimals && hasTotalSupply))
    (fun _ => ret false).
End WithRemote.

End TokenUtils.

(** ** hooks/useTokenData.ts *)

Module UseTokenData.
Import Rpc Effect Token.
Local Open Scope effect_scope.

Definition fallbackUrls (chainId : Z) : list string :=
  match chainId with
  | 1 => [ "https://rpc.ankr.com/eth"; "https://eth.llamarpc.com";
           "https://ethereum.publicnode.com"; "https://1rpc.io/eth" ]
  | 5 => [ "https://rpc.ankr.com/eth_goerli";
           "https://goerli.infura.io/v3/9aa3d95b3bc440fa88ea12eaa4456161" ]
  | 11155111 => [ "https://rpc.sepolia.org";
                  "https://sepolia.infura.io/v3/9aa3d95b3bc440fa88ea12eaa4456161" ]
  | _ => []
  end%string.

(** [rpcUrls.includes(url)] *)
Definition includes (rpcUrls : list string) (url : string) : bool :=
  bool_decide (url ∈ rpcUrls).

Definition pushUnique (rpcUrls : list string) (url : string) : list string :=
  if includes rpcUrls url then rpcUrls else rpcUrls ++ [url].

(** The ordered list [rpcUrls] built at the start of [tryConnectToNetwork]. *)
Definition rpcCandidates (lastSuccessful : gmap Z string) (chainId : Z) : list string :=
  let primaryRpcUrl := Networks.getRpcUrl chainId in
  let fallbacks := fallbackUrls chainId in
  let rpcUrls :=
    match lastSuccessful !! chainId with
    | Some url => if String.eqb url "" then [] else [url]
    | None => []
    end in
  let rpcUrls := pushUnique rpcUrls primaryRpcUrl in
  fold_left pushUnique fallbacks rpcUrls.

(** [const SECONDS_PER_BLOCK = 13] *)
Definition SECONDS_PER_BLOCK : Z := 13.

Definition batchSize : nat := 20.

(** [Object.keys] lists integer keys in ascending order, each once. *)
Fixpoint insertKey (k : Z) (keys : list Z) : list Z :=
  match keys with
  | [] => [k]
  | k' :: rest =>
      if k <? k' then k :: keys
      else if k =? k' then keys
      else k' :: insertKey k rest
  end.

Definition blockKeys (events : list Event) : list Z :=
  fold_left (fun keys event => insertKey (blockNumber event) keys) events [].

(** [processedTransfers.sort((a, b) => b.timestamp - a.timestamp)]: the
    sort is stable, most recent first. *)
Fixpoint insertByTimestamp (t : TokenTransfer) (sorted : list TokenTransfer)
  : list TokenTransfer :=
  match sorted with
  | [] => [t]
  | u :: rest =>
      if Token.timestamp u <=? Token.timestamp t then t :: sorted
      else u :: insertByTimestamp t rest
  end.

Definition sortByTimestampDesc (l : list TokenTransfer) : list TokenTransfer :=
  foldr insertByTimestamp [] l.

Definition isLargeTransferCheck (value totalSupply : string) : bool :=
  if String.eqb value "" || String.eqb totalSupply "" then false else
  default false
    (valueBN ← Ethers.BigNumber_from value;
     totalSupplyBN ← Ethers.BigNumber_from totalSupply;
     if totalSupplyBN =? 0 then Some false else
     let threshold := 0.005%float in
     n ← Ethers.toNumber (Z.quot (valueBN * 100) totalSupplyBN);
     let percentage := (JS.of_Z n / 100)%float in
     Some (PrimFloat.leb threshold percentage)).

(** The heads of the scan loop
    [for (chunkStart = fromBlock; chunkStart < currentBlock; chunkStart += chunkSize)]
    with [chunkEnd = Math.min(currentBlock, chunkStart + chunkSize - 1)]. *)
Equations? chunkRanges (currentBlock : Z) (chunkSize : positive) (chunkStart : Z)
  : list (Z * Z) by wf (Z.to_nat (currentBlock - chunkStart)) lt :=
  chunkRanges currentBlock chunkSize chunkStart with decide (chunkStart < currentBlock) => {
    | left _ =>
        (chunkStart, Z.min currentBlock (chunkStart + Z.pos chunkSize - 1))
          :: chunkRanges currentBlock chunkSize (chunkStart + Z.pos chunkSize);
    | right _ => [] }.
Proof. lia. Qed.

Section WithRemote.
Context (net : Remote).
Context (isAddress : string -> bool).

(** The probing loop of [tryConnectToNetwork]. *)
Fixpoint connectToFirst (chainId : Z) (rpcUrls : list string) : M Provider :=
  match rpcUrls with
  | [] => throw AllEndpointsFailed
  | url :: rest =>
      let* probe := attempt (getBlockNumber net url) in
      match probe with
      | Ok _ => setLastSuccessful chainId url >> ret url
      | Throw _ => connectToFirst chainId rest
      end
  end.

Definition tryConnectToNetwork (chainId : Z) : M Provider :=
  let* s := get in
  connectToFirst chainId (rpcCandidates (lastSuccessfulRpcByChain s) chainId).

(** The retry loop of [getBlockWithRetries]; [None] when every attempt
    failed. *)
Fixpoint fetchBlockAttempts (provider : Provider) (blockNumber : Z) (attemptsLeft : nat)
  : M (option Block) :=
  match attemptsLeft with
  | O => ret None
  | S k =>
      let* r := attempt (getBlock net provider (Number blockNumber)) in
      match r with
      | Ok block => cacheBlock blockNumber block >> ret (Some block)
      | Throw _ => fetchBlockAttempts provider blockNumber k
      end
  end.

Definition getBlockWithRetries (provider : Provider) (blockNumber : Z)
    (maxRetries : nat) : M Block :=
  let* s := get in
  match blockCache s !! blockNumber with
  | Some block => ret block
  | None =>
      let* fetched := fetchBlockAttempts provider blockNumber maxRetries in
      match fetched with
      | Some block => ret block
      | None =>
          let* estimatedTimestamp :=
            try_catch
              (let* currentBlock := getBlock net provider Latest in
               let blockDifference := number currentBlock - blockNumber in
               ret (Rpc.timestamp currentBlock - blockDifference * SECONDS_PER_BLOCK))
              (fun _ =>
                 let* now := Date_now net in
                 ret (now / 1000 - 1000 * SECONDS_PER_BLOCK)) in
          ret {| Rpc.hash := "estimated-" +:+ pretty blockNumber;
                 Rpc.number := blockNumber;
                 Rpc.timestamp := estimatedTimestamp |}
      end
  end.

(** [Promise.allSettled(batch.map(n => getBlockWithRetries(provider, n)))],
    the resolutions of one batch taken in index order. *)
Fixpoint settleAll (provider : Provider) (batch : list Z) : M unit :=
  match batch with
  | [] => ret tt
  | blockNumber :: rest =>
      attempt (getBlockWithRetries provider blockNumber 3) >> settleAll provider rest
  end.

Equations? prefetchBlocks (provider : Provider) (blockNumbers : list Z) : M unit
  by wf (length blockNumbers) lt :=
  prefetchBlocks provider [] := ret tt;
  prefetchBlocks provider (n :: rest) :=
    settleAll provider (take batchSize (n :: rest))
    >> prefetchBlocks provider (drop batchSize (n :: rest)).
Proof. rewrite length_drop. simpl. lia. Qed.

Fixpoint toTransfers (provider : Provider) (tokenInfo : TokenInfo)
    (events : list Event) (transfers : list TokenTransfer) : M (list TokenTransfer) :=
  match events with
  | [] => ret transfers
  | event :: rest =>
      match args event with
      | None => toTransfers provider tokenInfo rest transfers
      | Some (from, to, value) =>
          let* r := attempt (getBlockWithRetries provider (blockNumber event) 3) in
          match r with
          | Ok block =>
              let transfer :=
                {| Token.transactionHash := Rpc.transactionHash event;
                   Token.from := from;
                   Token.to := to;
                   Token.value := Ethers.BigNumber_toString value;
                   Token.timestamp := Rpc.timestamp block;
                   Token.isLargeTransfer :=
                     isLargeTransferCheck (Ethers.BigNumber_toString value)
                                          (totalSupply tokenInfo) |} in
              toTransfers provider tokenInfo rest (transfers ++ [transfer])
          | Throw _ => toTransfers provider tokenInfo rest transfers
          end
      end
  end.

Definition processTransferEvents (provider : Provider) (events : list Event)
    (tokenInfo : TokenInfo) : M (list TokenTransfer) :=
  if (length events =? 0)%nat then ret [] else
  let blockNumbers := blockKeys events in
  prefetchBlocks provider blockNumbers
  >> toTransfers provider tokenInfo events [].

(** The body of the scan loop over the chunks still to visit. *)
Fixpoint scanChunks (provider : Provider) (tokenAddress : string)
    (chunks : list (Z * Z)) (allEvents : list Event) : M (list Event) :=
  match chunks with
  | [] => ret allEvents
  | (chunkStart, chunkEnd) :: rest =>
      let* r := attempt (queryFilter net provider tokenAddress chunkStart chunkEnd) in
      match r with
      | Ok events =>
          let allEvents := allEvents ++ events in
          if (2000 <? length allEvents)%nat then ret allEvents
          else scanChunks provider tokenAddress rest allEvents
      | Throw _ => scanChunks provider tokenAddress rest allEvents
      end
  end.

(** The connection loop at the head of [fetchTokenData]. *)
Fixpoint connectWithRetries (chainId : Z) (attemptsLeft : nat) : M (option Provider) :=
  match attemptsLeft with
  | O => ret None
  | S k =>
      let* r := attempt (tryConnectToNetwork chainId) in
      match r with
      | Ok provider => ret (Some provider)
      | Throw _ =>
          if (k =? 0)%nat then throw ConnectionFailed
          else connectWithRetries chainId k
      end
  end.

Definition computeMarketData (tokenInfo : TokenInfo) (priceUsd : option float)
  : option TokenMarketData :=
  match priceUsd with
  | Some priceUsd =>
      if PrimFloat.ltb 0 priceUsd then
        let marketCap :=
          TokenUtils.calculateMarketCap (totalSupply tokenInfo) (decimals tokenInfo)
                                        priceUsd in
        let fullyDilutedCap :=
          TokenUtils.calculateFullyDilutedCap (totalSupply tokenInfo)
                                              (decimals tokenInfo) priceUsd None in
        let d := TokenUtils.calculateMarketCapDifference marketCap fullyDilutedCap in
        Some {| price := priceUsd;
                marketCap := marketCap;
                fullyDilutedCap := Some fullyDilutedCap;
                marketCapDifference := Some (TokenUtils.difference d);
                marketCapDifferencePercent := Some (TokenUtils.percentDifference d);
                offMarketSalesAbove := None;
                offMarketSalesBelow := None;
                offMarketSalesPercentage := None |}
      else None
  | None => None
  end.

(** The transfer stage: scan, resolve, classify, sort, split. *)
Definition retrieveTransfers (provider : Provider) (tokenAddress : string)
    (tokenInfo : TokenInfo) (fromBlock currentBlock : Z)
  : M (list TokenTransfer * list TokenTransfer) :=
  try_catch
    (let chunkSize := 10000%positive in
     let* allEvents :=
       scanChunks provider tokenAddress
                  (chunkRanges currentBlock chunkSize fromBlock) [] in
     if (0 <? length allEvents)%nat then
       let* processedTransfers := processTransferEvents provider allEvents tokenInfo in
       let processedTransfers := sortByTimestampDesc processedTransfers in
       ret (processedTransfers,
            filter (fun t => Token.isLargeTransfer t = true) processedTransfers)
     else ret ([], []))
    (fun _ => ret ([], [])).

Definition addOffMarketSales (marketData : option TokenMarketData)
    (priceUsd : option float) (largeTransfers : list TokenTransfer)
    (tokenInfo : TokenInfo) : M (option TokenMarketData) :=
  match marketData, priceUsd with
  | Some md, Some priceUsd =>
      if PrimFloat.ltb 0 priceUsd && (0 <? length largeTransfers)%nat then
        try_catch
          (let* r := TokenUtils.analyzeOffMarketSales net largeTransfers tokenInfo
                                                       priceUsd in
           ret (Some {| price := price md;
                        marketCap := marketCap md;
                        fullyDilutedCap := fullyDilutedCap md;
                        marketCapDifference := marketCapDifference md;
                        marketCapDifferencePercent := marketCapDifferencePercent md;
                        offMarketSalesAbove := Some (TokenUtils.abovePrice r);
                        offMarketSalesBelow := Some (TokenUtils.belowPrice r);
                        offMarketSalesPercentage := Some (TokenUtils.percentage r) |}))
          (fun _ => ret (Some md))
      else ret (Some md)
  | _, _ => ret marketData
  end.

Definition fetchTokenData (tokenAddress : string) (chainId : Z)
    (priceUsd : option float) : M TokenMetrics :=
  let maxAttempts := 3%nat in
  let* connected := connectWithRetries chainId maxAttempts in
  match connected with
  | None => throw NoProvider
  | Some provider =>
      let* tokenInfo :=
        try_catch
          (withTimeout net (TokenUtils.getTokenInfo net isAddress tokenAddress provider))
          (fun _ => throw TokenInfoFailed) in
      let marketData := computeMarketData tokenInfo priceUsd in
      let* currentBlock :=
        try_catch (getBlockNumber net provider)
                  (fun _ => throw CurrentBlockFailed) in
      let blocksPerDay := 6500 in
      let daysToLookBack := 30 in
      let blockRange := blocksPerDay * daysToLookBack in
      let fromBlock := Z.max 0 (currentBlock - blockRange) in
      let* (recentTransfers, largeTransfers) :=
        retrieveTransfers provider tokenAddress tokenInfo fromBlock currentBlock in
      let* marketData :=
        addOffMarketSales marketData priceUsd largeTransfers tokenInfo in
      ret {| tokenInfo :=
               {| address := address tokenInfo;
                  name := name tokenInfo;
                  symbol := symbol tokenInfo;
                  decimals := decimals tokenInfo;
                  totalSupply := totalSupply tokenInfo;
                  isERC20Compliant := isERC20Compliant tokenInfo;
                  chainId := chainId |};
             marketData := marketData;
             recentTransfers := recentTransfers;
             largeTransfers := largeTransfers |}
  end.
End WithRemote.

End UseTokenData.

(** ** Reference definitions, worded as the specification words them *)

Module Spec.

(** "large(amount, totalSupply) = amount * 1000 / totalSupply >= 5 using
    integer division truncation", and false when the supply is zero. *)
Definition large (amount totalSupply : Z) : bool :=
  if totalSupply =? 0 then false
  else 5 <=? Z.quot (amount * 1000) totalSupply.

(** "duplicates removed while preserving first-seen order". *)
Fixpoint uniqueFirst (l : list string) : list string :=
  match l with
  | [] => []
  | x :: rest => x :: filter (fun y => y ≠ x) (uniqueFirst rest)
  end.

(** "(a) last-successful endpoint for this network if any, (b) the
    network's primary configured endpoint, (c) zero or more configured
    fallback endpoints". *)
Definition candidateSources (lastSuccessful : gmap Z string) (chainId : Z)
  : list string :=
  match lastSuccessful !! chainId with
  | Some url => if String.eqb url "" then [] else [url]
  | None => []
  end
  ++ [Networks.getRpcUrl chainId]
  ++ UseTokenData.fallbackUrls chainId.

(** The "is-estimated" flag of a resolved block: the resolver marks a
    synthesized block by its hash [estimated-<number>]. *)
Definition isEstimated (b : Rpc.Block) : bool :=
  String.prefix "estimated-" (Rpc.hash b).

(** Left-to-right floating-point summation from an initial value, the
    way an accumulator updated by [+=] in a loop sums. *)
Definition fsumFrom (init : float) (l : list float) : float :=
  fold_left PrimFloat.add l init.

(** The amounts whose below-market verdict is [b]. *)
Fixpoint bucket (b : bool) (amounts : list float) (verdicts : list bool) : list float :=
  match amounts, verdicts with
  | a :: amounts, v :: verdicts =>
      if Bool.eqb v b then a :: bucket b amounts verdicts
      else bucket b amounts verdicts
  | _, _ => []
  end.

(** The token amount of a transfer as [analyzeOffMarketSales] reads it. *)
Definition amountOf (tokenInfo : Token.TokenInfo) (t : Token.TokenTransfer)
  : option float :=
  Ethers.parseFloat <$> Ethers.formatUnits (Token.value t) (Token.decimals tokenInfo).

(** Inclusive ranges that tile [[a, e]]: the first starts at [a], each is
    non-empty, each next one starts right after the previous one ends, and
    the last ends at [e] (no range at all tiles the empty [[a, a - 1]]). *)
Fixpoint tiles (a e : Z) (chunks : list (Z * Z)) : Prop :=
  match chunks with
  | [] => a = e + 1
  | (chunkStart, chunkEnd) :: rest =>
      chunkStart = a /\ chunkStart <= chunkEnd /\ tiles (chunkEnd + 1) e rest
  end.

(** The remote call that queries one chunk. *)
Definition chunkQuery (provider tokenAddress : string) (chunk : Z * Z) : Rpc.Call :=
  Rpc.QueryFilter provider tokenAddress chunk.1 chunk.2.

(** The state after probing the first [n] candidates, the last one with
    success. *)
Definition connectedState (chainId : Z) (s : Effect.State) (rpcUrls : list string)
    (n : nat) (url : string) : Effect.State :=
  {| Effect.clock := Effect.clock s + n;
     Effect.rpcLog := Effect.rpcLog s ++ map Rpc.GetBlockNumber (take n rpcUrls);
     Effect.lastSuccessfulRpcByChain := <[chainId := url]> (Effect.lastSuccessfulRpcByChain s);
     Effect.blockCache := Effect.blockCache s |}.

(** The state after probing every candidate without success. *)
Definition exhaustedState (s : Effect.State) (rpcUrls : list string) : Effect.State :=
  {| Effect.clock := Effect.clock s + length rpcUrls;
     Effect.rpcLog := Effect.rpcLog s ++ map Rpc.GetBlockNumber rpcUrls;
     Effect.lastSuccessfulRpcByChain := Effect.lastSuccessfulRpcByChain s;
     Effect.blockCache := Effect.blockCache s |}.

(** [s'] is a later state of the same session: time has not gone back, the
    log of remote calls has only grown at its end, and every block that was
    cached is still cached, unchanged. *)
Definition later (s s' : Effect.State) : Prop :=
  (Effect.clock s <= Effect.clock s')%nat
  /\ Effect.rpcLog s `prefix_of` Effect.rpcLog s'
  /\ Effect.blockCache s ⊆ Effect.blockCache s'.

(** A later state with the remembered endpoints untouched. *)
Definition quietlyLater (s s' : Effect.State) : Prop :=
  later s s'
  /\ Effect.lastSuccessfulRpcByChain s' = Effect.lastSuccessfulRpcByChain s.

(** A later state in which at most the endpoint remembered for [chainId]
    has changed. *)
Definition laterFor (chainId : Z) (s s' : Effect.State) : Prop :=
  later s s'
  /\ forall c, c <> chainId ->
       Effect.lastSuccessfulRpcByChain s' !! c = Effect.lastSuccessfulRpcByChain s !! c.

(** A computation every run of which ends in a state related by [R] to the
    state it started from, whether it returns or throws. *)
Definition keeps (R : Effect.State -> Effect.State -> Prop) {A} (m : Effect.M A) : Prop :=
  forall s, R s (m s).2.

(** A computation that never throws. *)
Definition neverThrows {A} (m : Effect.M A) : Prop :=
  forall s, exists a s', m s = (Effect.Ok a, s').

(** The log entry could be decoded into [from, to, value]. *)
Definition decoded (e : Rpc.Event) : bool :=
  match Rpc.args e with Some _ => true | None => false end.

(** [t] is the transfer record of the log entry [e], its timestamp left
    open. *)
Definition transferOf (tokenInfo : Token.TokenInfo) (e : Rpc.Event)
    (t : Token.TokenTransfer) : Prop :=
  exists from to value,
    Rpc.args e = Some (from, to, value)
    /\ Token.transactionHash t = Rpc.transactionHash e
    /\ Token.from t = from /\ Token.to t = to
    /\ Token.value t = Ethers.BigNumber_toString value
    /\ Token.isLargeTransfer t
       = UseTokenData.isLargeTransferCheck (Ethers.BigNumber_toString value)
           (Token.totalSupply tokenInfo).

(** Most recent first. *)
Definition newerFirst (a b : Token.TokenTransfer) : Prop :=
  Token.timestamp b <= Token.timestamp a.

(** What the chunk queries issued from time [t] on answer, a failed query
    counting for no events. *)
Fixpoint chunkReplies (net : Rpc.Remote) (provider tokenAddress : string) (t : nat)
    (chunks : list (Z * Z)) : list (list Rpc.Event) :=
  match chunks with
  | [] => []
  | chunk :: rest =>
      default [] (Rpc.logsAt net t provider tokenAddress chunk.1 chunk.2)
        :: chunkReplies net provider tokenAddress (S t) rest
  end.

(** Block [x] lies in the inclusive range [chunk]. *)
Definition inChunk (x : Z) (chunk : Z * Z) : Prop := chunk.1 <= x <= chunk.2.

End Spec.

(** ** Concrete worlds used to exercise the pipeline *)

Module Scenario.
Import Rpc Effect.

Definition fresh : State :=
  {| clock := 0; rpcLog := []; lastSuccessfulRpcByChain := ∅; blockCache := ∅ |}.

(** A remote service on which every call fails. *)
Definition unreachable : Remote :=
  {| blockNumberAt := fun _ _ => None;
     blockAt := fun _ _ _ => None;
     networkAt := fun _ _ => None;
     codeAt := fun _ _ _ => None;
     callStringAt := fun _ _ _ _ => None;
     callNumberAt := fun _ _ _ _ => None;
     logsAt := fun _ _ _ _ _ => None;
     randomAt := fun _ => 0%float;
     nowAt := fun _ => 1700000000000;
     timerFiresAt := fun _ => false |}.

(** Goerli with a remembered endpoint: of the three candidates only the
    third answers the liveness probe. *)
Definition remembered : State :=
  {| clock := 0; rpcLog := [];
     lastSuccessfulRpcByChain := {[ 5 := "https://example.org/rpc"%string ]};
     blockCache := ∅ |}.

Definition onlyAnkrUp : Remote :=
  {| blockNumberAt := fun _ url =>
       if String.eqb url "https://rpc.ankr.com/eth_goerli" then Some 9000000 else None;
     blockAt := fun _ _ _ => None;
     networkAt := fun _ _ => None;
     codeAt := fun _ _ _ => None;
     callStringAt := fun _ _ _ _ => None;
     callNumberAt := fun _ _ _ _ => None;
     logsAt := fun _ _ _ _ _ => None;
     randomAt := fun _ => 0%float;
     nowAt := fun _ => 1700000000000;
     timerFiresAt := fun _ => false |}.

(** Block 100 cannot be fetched during the first four interactions (the
    head, block 200, can); from the fifth on the service answers. *)
Definition block100 : Block :=
  {| hash := "0xabc"; number := 100; timestamp := 3650 |}.
Definition head200 : Block :=
  {| hash := "0xdef"; number := 200; timestamp := 5000 |}.

Definition lateBlock : Remote :=
  {| blockNumberAt := fun _ _ => None;
     blockAt := fun t _ tag =>
       match tag with
       | Latest => Some head200
       | Number n => if (4 <=? t)%nat && (n =? 100) then Some block100 else None
       end;
     networkAt := fun _ _ => None;
     codeAt := fun _ _ _ => None;
     callStringAt := fun _ _ _ _ => None;
     callNumberAt := fun _ _ _ _ => None;
     logsAt := fun _ _ _ _ _ => None;
     randomAt := fun _ => 0%float;
     nowAt := fun _ => 1700000000000;
     timerFiresAt := fun _ => false |}.

(** The service answers every block request at once. *)
Definition promptBlock : Remote :=
  {| blockNumberAt := fun _ _ => None;
     blockAt := fun _ _ tag =>
       match tag with
       | Latest => Some head200
       | Number n => if n =? 100 then Some block100 else None
       end;
     networkAt := fun _ _ => None;
     codeAt := fun _ _ _ => None;
     callStringAt := fun _ _ _ _ => None;
     callNumberAt := fun _ _ _ _ => None;
     logsAt := fun _ _ _ _ _ => None;
     randomAt := fun _ => 0%float;
     nowAt := fun _ => 1700000000000;
     timerFiresAt := fun _ => false |}.

Definition burnAddress : string := "0x000000000000000000000000000000000000dEaD".
Definition holder : string := "0x2222222222222222222222222222222222222222".

Definition transferEvent (blockNumber : Z) (recipient : string) (amount : Z) : Event :=
  {| Rpc.blockNumber := blockNumber;
     Rpc.transactionHash := "0x02";
     Rpc.args := Some ("0x1111111111111111111111111111111111111111"%string,
                       recipient, amount) |}.

(** Every chunk query answers with 2001 events. *)
Definition flood : Remote :=
  {| blockNumberAt := fun _ _ => None;
     blockAt := fun _ _ _ => None;
     networkAt := fun _ _ => None;
     codeAt := fun _ _ _ => None;
     callStringAt := fun _ _ _ _ => None;
     callNumberAt := fun _ _ _ _ => None;
     logsAt := fun _ _ _ fromBlock _ =>
       Some (replicate 2001 (transferEvent fromBlock "0x22" 1));
     randomAt := fun _ => 0%float;
     nowAt := fun _ => 1700000000000;
     timerFiresAt := fun _ => false |}.

(** The first chunk query answers with exactly 2000 events, the later
    ones with none. *)
Definition brimful : Remote :=
  {| blockNumberAt := fun _ _ => None;
     blockAt := fun _ _ _ => None;
     networkAt := fun _ _ => None;
     codeAt := fun _ _ _ => None;
     callStringAt := fun _ _ _ _ => None;
     callNumberAt := fun _ _ _ _ => None;
     logsAt := fun t _ _ fromBlock _ =>
       Some (if (t =? 0)%nat then replicate 2000 (transferEvent fromBlock "0x22" 1)
             else []);
     randomAt := fun _ => 0%float;
     nowAt := fun _ => 1700000000000;
     timerFiresAt := fun _ => false |}.

Definition daiAddress : string := "0x6B175474E89094C44Da98b954EedeAC495271d0F".

(** A healthy mainnet endpoint at head 300000 serving a token of 1000
    units (18 decimals) with three transfers in the first chunk: 10 and
    50 tokens (large) and 1 token (not large).  [headAnswers] tells
    whether the head number is still served at a given time. *)
Definition mainnet (headAnswers : nat -> bool) : Remote :=
  {| blockNumberAt := fun t _ => if headAnswers t then Some 300000 else None;
     blockAt := fun _ _ tag =>
       match tag with
       | Latest => Some {| hash := "0xhead"; number := 300000; timestamp := 1700300000 |}
       | Number n => Some {| hash := "0xblock"; number := n; timestamp := 1700000000 + n |}
       end;
     networkAt := fun _ _ => Some 1;
     codeAt := fun _ _ _ => Some "0x6080604052"%string;
     callStringAt := fun _ _ _ method =>
       Some (if String.eqb method "name" then "Dai Stablecoin" else "DAI")%string;
     callNumberAt := fun _ _ _ method =>
       Some (if String.eqb method "decimals" then 18 else 1000000000000000000000);
     logsAt := fun _ _ _ fromBlock _ =>
       Some (if fromBlock =? 105000
             then [ transferEvent 105500 holder 10000000000000000000;
                    transferEvent 110000 holder 1000000000000000000;
                    transferEvent 110000 burnAddress 50000000000000000000 ]
             else []);
     randomAt := fun _ => 0%float;
     nowAt := fun _ => 1700300000000;
     timerFiresAt := fun _ => false |}.

Definition healthy : Remote := mainnet (fun _ => true).

(** The same endpoint, except that the head number is served to the
    liveness probe only. *)
Definition headLost : Remote := mainnet (fun t => (t =? 0)%nat).

Definition anyAddress : string -> bool := fun _ => true.

(** Block 100 is served at the third request only. *)
Definition thirdTime : Remote :=
  {| blockNumberAt := fun _ _ => None;
     blockAt := fun t _ tag =>
       match tag with
       | Latest => Some head200
       | Number n => if (t =? 2)%nat && (n =? 100) then Some block100 else None
       end;
     networkAt := fun _ _ => None;
     codeAt := fun _ _ _ => None;
     callStringAt := fun _ _ _ _ => None;
     callNumberAt := fun _ _ _ _ => None;
     logsAt := fun _ _ _ _ _ => None;
     randomAt := fun _ => 0%float;
     nowAt := fun _ => 1700000000000;
     timerFiresAt := fun _ => false |}.

(** A contract that answers none of the four ERC-20 reads. *)
Definition bareContract : Remote :=
  {| blockNumberAt := fun _ _ => Some 300000;
     blockAt := fun _ _ _ => None;
     networkAt := fun _ _ => Some 1;
     codeAt := fun _ _ _ => Some "0x6080604052"%string;
     callStringAt := fun _ _ _ _ => None;
     callNumberAt := fun _ _ _ _ => None;
     logsAt := fun _ _ _ _ _ => None;
     randomAt := fun _ => 0%float;
     nowAt := fun _ => 1700000000000;
     timerFiresAt := fun _ => false |}.

(** An externally owned account: there is no code at the address. *)
Definition noContract : Remote :=
  {| blockNumberAt := fun _ _ => Some 300000;
     blockAt := fun _ _ _ => None;
     networkAt := fun _ _ => Some 1;
     codeAt := fun _ _ _ => Some "0x"%string;
     callStringAt := fun _ _ _ _ => None;
     callNumberAt := fun _ _ _ _ => None;
     logsAt := fun _ _ _ _ _ => None;
     randomAt := fun _ => 0%float;
     nowAt := fun _ => 1700000000000;
     timerFiresAt := fun _ => false |}.

(** The second chunk query times out; every other one answers with one
    event, at the first block of its chunk. *)
Definition flaky : Remote :=
  {| blockNumberAt := fun _ _ => None;
     blockAt := fun _ _ _ => None;
     networkAt := fun _ _ => None;
     codeAt := fun _ _ _ => None;
     callStringAt := fun _ _ _ _ => None;
     callNumberAt := fun _ _ _ _ => None;
     logsAt := fun t _ _ fromBlock _ =>
       if (t =? 1)%nat then None else Some [transferEvent fromBlock holder 1];
     randomAt := fun _ => 0%float;
     nowAt := fun _ => 1700000000000;
     timerFiresAt := fun _ => false |}.

(** An address check that rejects every string. *)
Definition noAddress : string -> bool := fun _ => false.

(** A token with 18 decimals and the given raw supply. *)
Definition token (supply : string) : Token.TokenInfo :=
  {| Token.address := "0x6B175474E89094C44Da98b954EedeAC495271d0F";
     Token.name := "Token"; Token.symbol := "TKN"; Token.decimals := 18;
     Token.totalSupply := supply; Token.isERC20Compliant := true;
     Token.chainId := 1 |}.

(** A large transfer of [amount] raw units to [recipient]. *)
Definition largeTransferTo (recipient amount : string) : Token.TokenTransfer :=
  {| Token.transactionHash := "0x01";
     Token.from := "0x1111111111111111111111111111111111111111";
     Token.to := recipient; Token.value := amount;
     Token.timestamp := 1699000000; Token.isLargeTransfer := true |}.

(** 0.3, 0.2 and 0.1 token out of a supply of one token; the second
    goes to an address starting with 0x00. *)
Definition threeTransfers : list Token.TokenTransfer :=
  [ largeTransferTo holder "300000000000000000";
    largeTransferTo burnAddress "200000000000000000";
    largeTransferTo holder "100000000000000000" ].

Definition noVolume : TokenUtils.Volumes :=
  {| TokenUtils.totalVolumeTokens := 0; TokenUtils.abovePriceVolume := 0;
     TokenUtils.belowPriceVolume := 0 |}.

End Scenario.

(** * Properties *)

Import Rpc Effect.

(** ** Reasoning about the effect monad *)

Lemma bind_Ok {A B} (m : M A) (k : A -> M B) s a s' :
  m s = (Ok a, s') -> bind m k s = k a s'.
Proof. intros H. unfold bind. rewrite H. reflexivity. Qed.

Lemma bind_Throw {A B} (m : M A) (k : A -> M B) s e s' :
  m s = (Throw e, s') -> bind m k s = (Throw e, s').
Proof. intros H. unfold bind. rewrite H. reflexivity. Qed.

Lemma attempt_run {A} (m : M A) s :
  attempt m s = (Ok (m s).1, (m s).2).
Proof. unfold attempt. destruct (m s); reflexivity. Qed.

Lemma remote_run {A} (c : Call) (answer : nat -> option A) s :
  remote c answer s =
  (match answer (clock s) with Some a => Ok a | None => Throw RpcFailure end,
   tick (logCall c s)).
Proof. unfold remote. destruct (answer (clock s)); reflexivity. Qed.

(** A state is determined by its four components. *)
Lemma State_eq (s1 s2 : State) :
  clock s1 = clock s2 -> rpcLog s1 = rpcLog s2 ->
  lastSuccessfulRpcByChain s1 = lastSuccessfulRpcByChain s2 ->
  blockCache s1 = blockCache s2 -> s1 = s2.
Proof. destruct s1, s2; simpl; intros; subst; reflexivity. Qed.

Ltac state_eq :=
  apply State_eq; simpl; try done; try lia;
  try (rewrite <- ?app_assoc, ?app_nil_r; simpl; done).

(** ** Endpoint selection *)

Section EndpointSelection.
Import UseTokenData.

Lemma filter_total {A} (P : A -> Prop) `{!forall x, Decision (P x)} (l : list A) :
  (forall x, P x) -> filter P l = l.
Proof.
  intros HP. induction l as [|x l IH]; [done|].
  rewrite filter_cons_True by done. by rewrite IH.
Qed.

Lemma fold_pushUnique (l acc : list string) :
  fold_left pushUnique l acc = acc ++ filter (fun y => y ∉ acc) (Spec.uniqueFirst l).
Proof.
  revert acc. induction l as [|x l IH]; intros acc; simpl.
  - by rewrite app_nil_r.
  - rewrite IH. unfold pushUnique, includes. case_bool_decide as Hx.
    + rewrite filter_cons_False by tauto.
      f_equal. rewrite list_filter_filter. apply list_filter_iff.
      intros y. simpl. split; [|tauto]. intros Hy. split; [done|]. by intros ->.
    + rewrite filter_cons_True by done.
      rewrite <- app_assoc. simpl. do 2 f_equal.
      rewrite list_filter_filter. apply list_filter_iff.
      intros y. rewrite not_elem_of_app, list_elem_of_singleton. tauto.
Qed.

Lemma rpcCandidates_uniqueFirst (lastSuccessful : gmap Z string) (chainId : Z) :
  rpcCandidates lastSuccessful chainId
  = Spec.uniqueFirst (Spec.candidateSources lastSuccessful chainId).
Proof.
  unfold rpcCandidates, Spec.candidateSources.
  set (last := match lastSuccessful !! chainId with
               | Some url => if String.eqb url "" then [] else [url]
               | None => []
               end).
  assert (Hlast : last = fold_left pushUnique last []).
  { subst last. destruct (lastSuccessful !! chainId) as [u|]; [|done].
    destruct (String.eqb u ""); done. }
  rewrite Hlast at 1.
  change (pushUnique ?a ?x) with (fold_left pushUnique [x] a).
  rewrite <- !fold_left_app, fold_pushUnique. simpl.
  apply filter_total. intros y. apply not_elem_of_nil.
Qed.

Context (net : Remote).

Lemma connectToFirst_success chainId rpcUrls : forall s k url,
  rpcUrls !! k = Some url ->
  (forall j u, (j < k)%nat -> rpcUrls !! j = Some u ->
               blockNumberAt net (clock s + j) u = None) ->
  is_Some (blockNumberAt net (clock s + k) url) ->
  connectToFirst net chainId rpcUrls s
  = (Ok url, Spec.connectedState chainId s rpcUrls (S k) url).
Proof.
  induction rpcUrls as [|u rest IH]; intros s k url Hk Hfail Hok; [done|].
  simpl. unfold bind at 1. rewrite attempt_run. unfold getBlockNumber.
  rewrite remote_run. simpl.
  destruct k as [|k]; simpl in Hk.
  - injection Hk as ->. rewrite Nat.add_0_r in Hok. destruct Hok as [n ->].
    unfold bind, setLastSuccessful, ret, Spec.connectedState. simpl.
    f_equal. state_eq.
  - pose proof (Hfail 0%nat u ltac:(lia) eq_refl) as H0.
    rewrite Nat.add_0_r in H0. rewrite H0.
    rewrite (IH _ k url Hk).
    + f_equal. state_eq.
    + intros j v Hj Hv. cbn [clock tick logCall].
      replace (S (clock s) + j)%nat with (clock s + S j)%nat by lia.
      apply Hfail; [lia|done].
    + cbn [clock tick logCall].
      by replace (S (clock s) + k)%nat with (clock s + S k)%nat by lia.
Qed.

Lemma connectToFirst_exhausted chainId rpcUrls : forall s,
  (forall j u, rpcUrls !! j = Some u -> blockNumberAt net (clock s + j) u = None) ->
  connectToFirst net chainId rpcUrls s
  = (Throw AllEndpointsFailed, Spec.exhaustedState s rpcUrls).
Proof.
  induction rpcUrls as [|u rest IH]; intros s Hfail; simpl.
  - unfold throw. f_equal. state_eq.
  - unfold bind at 1. rewrite attempt_run. unfold getBlockNumber.
    rewrite remote_run. simpl.
    pose proof (Hfail 0%nat u eq_refl) as H0. rewrite Nat.add_0_r in H0.
    rewrite H0, IH.
    + f_equal. state_eq.
    + intros j v Hv. cbn [clock tick logCall].
      replace (S (clock s) + j)%nat with (clock s + S j)%nat by lia.
      by apply Hfail.
Qed.

End EndpointSelection.

(** C8: the candidate list is the last-successful endpoint (if any), the
    primary endpoint, then the fallbacks, duplicates removed in first-seen
    order; the candidates are probed strictly in that order; the first one
    that answers is returned and recorded as last-successful for the
    network, after exactly the probes up to it; when none answers the call
    throws and the last-successful record is left as it was. *)
Theorem endpoint_selection_ordered (net : Remote) (chainId : Z) (s : State) :
  let rpcUrls := UseTokenData.rpcCandidates (lastSuccessfulRpcByChain s) chainId in
  rpcUrls = Spec.uniqueFirst (Spec.candidateSources (lastSuccessfulRpcByChain s) chainId)
  /\ (forall k url,
        rpcUrls !! k = Some url ->
        (forall j u, (j < k)%nat -> rpcUrls !! j = Some u ->
                     blockNumberAt net (clock s + j) u = None) ->
        is_Some (blockNumberAt net (clock s + k) url) ->
        UseTokenData.tryConnectToNetwork net chainId s
        = (Ok url, Spec.connectedState chainId s rpcUrls (S k) url))
  /\ ((forall j u, rpcUrls !! j = Some u ->
                   blockNumberAt net (clock s + j) u = None) ->
      UseTokenData.tryConnectToNetwork net chainId s
      = (Throw AllEndpointsFailed, Spec.exhaustedState s rpcUrls)).
Proof.
  intros rpcUrls. split; [apply rpcCandidates_uniqueFirst|]. split.
  - intros k url Hk Hfail Hok.
    unfold UseTokenData.tryConnectToNetwork, bind, get.
    by apply connectToFirst_success.
  - intros Hfail.
    unfold UseTokenData.tryConnectToNetwork, bind, get.
    by apply connectToFirst_exhausted.
Qed.

(** With candidates [A; B; C] where A and B fail and C answers, exactly A,
    B, C are probed, C is returned and C is recorded. *)
Lemma endpoint_selection_third_candidate :
  let run := UseTokenData.tryConnectToNetwork Scenario.onlyAnkrUp 5 Scenario.remembered in
  UseTokenData.rpcCandidates (lastSuccessfulRpcByChain Scenario.remembered) 5
  = [ "https://example.org/rpc";
      "https://goerli.infura.io/v3/9aa3d95b3bc440fa88ea12eaa4456161";
      "https://rpc.ankr.com/eth_goerli" ]%string
  /\ run.1 = Ok "https://rpc.ankr.com/eth_goerli"%string
  /\ rpcLog run.2
     = [ GetBlockNumber "https://example.org/rpc";
         GetBlockNumber "https://goerli.infura.io/v3/9aa3d95b3bc440fa88ea12eaa4456161";
         GetBlockNumber "https://rpc.ankr.com/eth_goerli" ]
  /\ lastSuccessfulRpcByChain run.2 !! 5 = Some "https://rpc.ankr.com/eth_goerli"%string.
Proof.
  intros run. subst run.
  rewrite (proj1 (proj2 (endpoint_selection_ordered
                           Scenario.onlyAnkrUp 5 Scenario.remembered))
             2%nat "https://rpc.ankr.com/eth_goerli"%string).
  - vm_compute. repeat split; reflexivity.
  - reflexivity.
  - intros [|[|j]] u Hj Hu; [| |lia]; vm_compute in Hu;
      injection Hu as <-; reflexivity.
  - vm_compute. eauto.
Defined.

(** ** Block resolution *)

Section BlockResolution.
Import UseTokenData.
Context (net : Remote).

Lemma fetchBlockAttempts_exhausted provider blockNumber n : forall s,
  (forall k, (k < n)%nat ->
             blockAt net (clock s + k) provider (Number blockNumber) = None) ->
  fetchBlockAttempts net provider blockNumber n s
  = (Ok None,
     {| clock := clock s + n;
        rpcLog := rpcLog s ++ replicate n (GetBlock provider (Number blockNumber));
        lastSuccessfulRpcByChain := lastSuccessfulRpcByChain s;
        blockCache := blockCache s |}).
Proof.
  induction n as [|n IH]; intros s Hfail; simpl.
  - unfold ret. f_equal. state_eq.
  - unfold bind at 1. rewrite attempt_run. unfold getBlock. rewrite remote_run.
    pose proof (Hfail 0%nat ltac:(lia)) as H0. rewrite Nat.add_0_r in H0.
    cbn [fst snd]. rewrite H0, IH.
    + f_equal. state_eq.
    + intros k Hk. cbn [clock tick logCall].
      replace (S (clock s) + k)%nat with (clock s + S k)%nat by lia.
      apply Hfail. lia.
Qed.

(** An attempt loop that yields a block has stored that very block in
    the cache; one that yields nothing leaves the cache as it was.  The
    loop itself never throws. *)
Lemma fetchBlockAttempts_cache provider blockNumber n : forall s,
  exists r s',
    fetchBlockAttempts net provider blockNumber n s = (Ok r, s')
    /\ match r with
       | Some block =>
           blockCache s' = <[blockNumber := block]> (blockCache s)
           /\ exists k, (k < n)%nat
                /\ blockAt net (clock s + k) provider (Number blockNumber) = Some block
       | None =>
           blockCache s' = blockCache s
           /\ forall k, (k < n)%nat ->
                blockAt net (clock s + k) provider (Number blockNumber) = None
       end.
Proof.
  induction n as [|n IH]; intros s; simpl.
  - exists None, s. split; [done|]. split; [done|]. intros k Hk. lia.
  - unfold bind at 1. rewrite attempt_run. unfold getBlock. rewrite remote_run.
    cbn [fst snd].
    destruct (blockAt net (clock s) provider (Number blockNumber)) as [block|] eqn:Hb.
    + eexists (Some block), _. split; [reflexivity|]. simpl. split; [done|].
      exists 0%nat. split; [lia|]. by rewrite Nat.add_0_r.
    + destruct (IH (tick (logCall (GetBlock provider (Number blockNumber)) s)))
        as (r & s' & Hrun & Hr).
      exists r, s'. split; [done|]. cbn [clock tick logCall blockCache] in Hr.
      destruct r as [block|].
      * destruct Hr as [Hc (k & Hk & Hat)]. split; [done|].
        exists (S k). split; [lia|].
        by replace (clock s + S k)%nat with (S (clock s) + k)%nat by lia.
      * destruct Hr as [Hc Hnone]. split; [done|].
        intros [|k] Hk; [by rewrite Nat.add_0_r|].
        replace (clock s + S k)%nat with (S (clock s) + k)%nat by lia.
        apply Hnone. lia.
Qed.

(** A cache hit returns the cached block and touches nothing. *)
Lemma getBlockWithRetries_hit provider blockNumber n s block :
  blockCache s !! blockNumber = Some block ->
  getBlockWithRetries net provider blockNumber n s = (Ok block, s).
Proof.
  intros Hhit. unfold getBlockWithRetries, bind, get. by rewrite Hhit.
Qed.

(** The estimate synthesized once every attempt has failed. *)
Lemma getBlockWithRetries_fallback provider blockNumber n s :
  blockCache s !! blockNumber = None ->
  (forall k, (k < n)%nat ->
             blockAt net (clock s + k) provider (Number blockNumber) = None) ->
  exists s',
    getBlockWithRetries net provider blockNumber n s
    = (Ok {| hash := "estimated-" +:+ pretty blockNumber;
             number := blockNumber;
             timestamp :=
               match blockAt net (clock s + n) provider Latest with
               | Some head =>
                   timestamp head - (number head - blockNumber) * 13
               | None => nowAt net (clock s + n + 1) / 1000 - 1000 * 13
               end |}, s')
    /\ blockCache s' = blockCache s
    /\ rpcLog s' = rpcLog s ++ replicate n (GetBlock provider (Number blockNumber))
                            ++ [GetBlock provider Latest].
Proof.
  intros Hmiss Hfail. unfold getBlockWithRetries.
  unfold bind at 1, get. rewrite Hmiss.
  unfold bind at 1. rewrite fetchBlockAttempts_exhausted by done.
  unfold bind at 1, try_catch, bind at 1, getBlock. rewrite remote_run.
  cbn [clock tick logCall].
  destruct (blockAt net (clock s + n) provider Latest) as [head|].
  - eexists. split; [reflexivity|]. simpl. split; [done|]. by rewrite <- app_assoc.
  - unfold bind, Date_now, observe, ret. cbn [clock tick logCall].
    replace (S (clock s + n)) with (clock s + n + 1)%nat by lia.
    eexists. split; [reflexivity|]. simpl. split; [done|]. by rewrite <- app_assoc.
Qed.

Lemma estimate_isEstimated (blockNumber ts : Z) :
  Spec.isEstimated {| hash := "estimated-" +:+ pretty blockNumber;
                      number := blockNumber; timestamp := ts |} = true.
Proof.
  unfold Spec.isEstimated. simpl. by destruct (pretty blockNumber).
Qed.

End BlockResolution.

(** C2: block resolution is idempotent after a resolution that found the
    block in the cache or fetched it from the remote service: resolving the
    same block number again returns the same block (same timestamp, same
    estimated flag) and leaves the state, the log of remote calls included,
    unchanged. *)
Theorem block_resolution_idempotent_once_cached
    (net : Remote) (provider : Provider) (blockNumber : Z) (n : nat)
    (s s1 : State) (block : Block) :
  UseTokenData.getBlockWithRetries net provider blockNumber n s = (Ok block, s1) ->
  (is_Some (blockCache s !! blockNumber)
   \/ exists k, (k < n)%nat
        /\ is_Some (blockAt net (clock s + k) provider (Number blockNumber))) ->
  UseTokenData.getBlockWithRetries net provider blockNumber n s1 = (Ok block, s1).
Proof.
  intros Hrun Hfound. apply getBlockWithRetries_hit.
  unfold UseTokenData.getBlockWithRetries in Hrun.
  unfold bind at 1, get in Hrun.
  destruct (blockCache s !! blockNumber) as [cached|] eqn:Hc.
  - unfold ret in Hrun. injection Hrun as <- <-. exact Hc.
  - destruct Hfound as [[? ?]|(k & Hk & Hsome)]; [done|].
    destruct (fetchBlockAttempts_cache net provider blockNumber n s)
      as (r & s' & Hattempts & Hr).
    unfold bind at 1 in Hrun. rewrite Hattempts in Hrun.
    destruct r as [fetched|].
    + unfold ret in Hrun. injection Hrun as <- <-. destruct Hr as [-> _].
      apply lookup_insert_eq.
    + destruct Hr as [_ Hnone]. rewrite (Hnone k Hk) in Hsome.
      by destruct Hsome.
Qed.

(** A first resolution served by the remote service, then the same
    resolution again. *)
Lemma block_resolution_idempotent_prompt :
  let first := UseTokenData.getBlockWithRetries Scenario.promptBlock "rpc" 100 3
                 Scenario.fresh in
  first.1 = Ok Scenario.block100
  /\ UseTokenData.getBlockWithRetries Scenario.promptBlock "rpc" 100 3 first.2
     = (Ok Scenario.block100, first.2).
Proof.
  intros first. split; [reflexivity|].
  apply (block_resolution_idempotent_once_cached
           Scenario.promptBlock "rpc" 100 3 Scenario.fresh).
  - reflexivity.
  - right. exists 0%nat. split; [lia|]. vm_compute. eauto.
Defined.

(** C2, as stated, fails after a fallback: the estimate is not cached, so
    the second resolution calls the remote service again and may return a
    block with another timestamp and another estimated flag. *)
Lemma block_resolution_repeats_after_fallback :
  exists b1 s1 b2 s2,
    UseTokenData.getBlockWithRetries Scenario.lateBlock "rpc" 100 3 Scenario.fresh
    = (Ok b1, s1)
    /\ UseTokenData.getBlockWithRetries Scenario.lateBlock "rpc" 100 3 s1 = (Ok b2, s2)
    /\ Spec.isEstimated b1 = true /\ Spec.isEstimated b2 = false
    /\ timestamp b1 = 3700 /\ timestamp b2 = 3650
    /\ blockCache s1 !! 100 = None
    /\ length (rpcLog s1) = 4%nat /\ length (rpcLog s2) = 5%nat.
Proof.
  do 4 eexists. split; [vm_compute; reflexivity|].
  split; [vm_compute; reflexivity|].
  vm_compute. repeat split; reflexivity.
Qed.

(** C7: when the block is not cached and all three fetch attempts fail,
    the resolver returns (it does not throw) a block for the requested
    number whose timestamp is extrapolated from the head,
    [head.timestamp - (head.number - blockNumber) * 13]; when the head
    cannot be fetched either, the timestamp is taken from the wall clock,
    [floor(now / 1000) - 1000 * 13]. *)
Theorem resolver_falls_back_to_estimate
    (net : Remote) (provider : Provider) (blockNumber : Z) (s : State) :
  blockCache s !! blockNumber = None ->
  (forall k, (k < 3)%nat ->
             blockAt net (clock s + k) provider (Number blockNumber) = None) ->
  exists block s',
    UseTokenData.getBlockWithRetries net provider blockNumber 3 s = (Ok block, s')
    /\ number block = blockNumber
    /\ Spec.isEstimated block = true
    /\ timestamp block
       = match blockAt net (clock s + 3) provider Latest with
         | Some head => timestamp head - (number head - blockNumber) * 13
         | None => nowAt net (clock s + 4) / 1000 - 1000 * 13
         end.
Proof.
  intros Hmiss Hfail.
  destruct (getBlockWithRetries_fallback net provider blockNumber 3 s Hmiss Hfail)
    as (s' & Hrun & _).
  eexists _, s'. split; [exact Hrun|].
  split; [reflexivity|]. split; [apply estimate_isEstimated|].
  cbn [timestamp]. by replace (clock s + 3 + 1)%nat with (clock s + 4)%nat by lia.
Qed.

(** On an unreachable service block 100 resolves to the wall-clock
    estimate, and after three failures with a reachable head to the
    extrapolation from block 200. *)
Lemma resolver_falls_back_examples :
  (exists block s',
     UseTokenData.getBlockWithRetries Scenario.unreachable "rpc" 100 3 Scenario.fresh
     = (Ok block, s')
     /\ number block = 100 /\ Spec.isEstimated block = true
     /\ timestamp block = 1700000000 - 13000)
  /\ (exists block s',
        UseTokenData.getBlockWithRetries Scenario.lateBlock "rpc" 100 3 Scenario.fresh
        = (Ok block, s')
        /\ number block = 100 /\ Spec.isEstimated block = true
        /\ timestamp block = 5000 - (200 - 100) * 13).
Proof.
  split.
  - exact (resolver_falls_back_to_estimate Scenario.unreachable "rpc" 100 Scenario.fresh
             eq_refl (fun k _ => eq_refl)).
  - refine (resolver_falls_back_to_estimate Scenario.lateBlock "rpc" 100 Scenario.fresh
              eq_refl _).
    intros [|[|[|k]]] Hk; try reflexivity. lia.
Defined.

(** ** Transfer classification *)

Section Classification.

(** Both classifiers reject every transfer when the supply parses to zero. *)
Lemma classifiers_zero_supply (value totalSupply : string) :
  Ethers.BigNumber_from totalSupply = Some 0 ->
  UseTokenData.isLargeTransferCheck value totalSupply = false
  /\ TokenUtils.isLargeTransfer value totalSupply = false.
Proof.
  intros Hz. unfold UseTokenData.isLargeTransferCheck, TokenUtils.isLargeTransfer.
  rewrite Hz. split.
  - destruct (_ || _); [done|]. by destruct (Ethers.BigNumber_from value).
  - by destruct (Ethers.BigNumber_from value).
Qed.


(** That threshold is the specified one whenever 0.5% of the supply is a
    whole number of units. *)
Lemma threshold_agrees_on_multiples_of_200 (v ts : Z) :
  0 <= v -> 0 < ts -> ts mod 200 = 0 ->
  (Z.quot (ts * 5) 1000 <=? v) = Spec.large v ts.
Proof.
  intros Hv Hts Hmod. unfold Spec.large.
  destruct (Z.eqb_spec ts 0); [lia|].
  rewrite !Z.quot_div_nonneg by lia.
  apply Z.mod_divide in Hmod; [|lia]. destruct Hmod as [q ->].
  replace (q * 200 * 5) with (q * 1000) by lia.
  rewrite Z.div_mul by lia.
  destruct (Z.leb_spec q v) as [Hle|Hlt]; symmetry.
  - apply Z.leb_le. apply Z.div_le_lower_bound; lia.
  - apply Z.leb_gt. apply Z.div_lt_upper_bound; lia.
Qed.

End Classification.

(** C1: the classifier the pipeline applies does not implement the 0.5%
    rule.  A transfer of exactly 0.5% of the supply (5 of 1000 units, or 5
    of 1000 tokens at 18 decimals) is large by the specified rule but
    [isLargeTransferCheck] rejects it: the percentage is truncated to a
    whole percent before it is compared.  The standalone [isLargeTransfer]
    accepts 5 of 1001 units, which the specified rule rejects. *)
Theorem classifier_misses_half_percent :
  Spec.large 5 1000 = true
  /\ UseTokenData.isLargeTransferCheck "5" "1000" = false
  /\ Spec.large 5000000000000000000 1000000000000000000000 = true
  /\ UseTokenData.isLargeTransferCheck "5000000000000000000" "1000000000000000000000"
     = false
  /\ Spec.large 5 1001 = false
  /\ TokenUtils.isLargeTransfer "5" "1001" = true.
Proof. vm_compute. repeat split; reflexivity. Qed.

(** ** Chunked scanning *)

Section Chunking.
Import UseTokenData.

Lemma chunkRanges_unfold (currentBlock : Z) (chunkSize : positive) (chunkStart : Z) :
  chunkRanges currentBlock chunkSize chunkStart
  = if decide (chunkStart < currentBlock)
    then (chunkStart, Z.min currentBlock (chunkStart + Z.pos chunkSize - 1))
           :: chunkRanges currentBlock chunkSize (chunkStart + Z.pos chunkSize)
    else [].
Proof.
  rewrite chunkRanges_equation_1.
  destruct (decide (chunkStart < currentBlock)); reflexivity.
Qed.

(** What the generated chunks cover: they tile the range up to the head
    when the range length is not a multiple of the chunk size, and stop one
    block short of the head when it is. *)
Lemma chunkRanges_tiles (a b : Z) (c : positive) :
  a <= b ->
  Spec.tiles a (if (b - a) mod Z.pos c =? 0 then b - 1 else b) (chunkRanges b c a).
Proof.
  remember (Z.to_nat (b - a)) as n eqn:Hn. revert a Hn.
  induction n as [n IH] using lt_wf_ind. intros a Hn Hab.
  rewrite chunkRanges_unfold. destruct (decide (a < b)) as [Hlt|Hge].
  - simpl. split; [done|]. split; [lia|].
    destruct (decide (a + Z.pos c <= b)) as [Hfull|Hlast].
    + rewrite Z.min_r by lia.
      replace (a + Z.pos c - 1 + 1) with (a + Z.pos c) by lia.
      replace ((b - a) mod Z.pos c) with ((b - (a + Z.pos c)) mod Z.pos c).
      * apply (IH (Z.to_nat (b - (a + Z.pos c)))); lia.
      * replace (b - a) with (b - (a + Z.pos c) + 1 * Z.pos c) by lia.
        by rewrite Z.mod_add.
    + rewrite Z.min_l by lia. rewrite chunkRanges_unfold.
      destruct (decide (a + Z.pos c < b)); [lia|]. simpl.
      rewrite Z.mod_small by lia. destruct (Z.eqb_spec (b - a) 0); lia.
  - simpl. replace (b - a) with 0 by lia. rewrite Z.mod_0_l by lia. simpl. lia.
Qed.

End Chunking.

(** C5: with the head at block 10000 the scan range is [0, 10000] and the
    only chunk generated is [0, 9999]: block 10000 lies in no chunk.  With
    the head at block 0 no chunk is generated at all. *)
Theorem chunk_scan_misses_aligned_head :
  UseTokenData.chunkRanges 10000 10000 0 = [(0, 9999)]
  /\ UseTokenData.chunkRanges 0 10000 0 = [].
Proof. vm_compute. split; reflexivity. Qed.

(** ** Market metrics *)

(** C6: [analyzeOffMarketSales] divides by the market cap and by the
    supply without a guard.  With a supply of "0", one large transfer of
    one token to a burn address and a price of 1, it returns NaN and
    Infinity. *)
Theorem off_market_sales_divide_by_zero_supply (net : Remote) (s : State) :
  let r := {| TokenUtils.abovePrice := nan;
              TokenUtils.belowPrice := infinity;
              TokenUtils.percentage := infinity;
              TokenUtils.volumeUSD := 1 |} in
  TokenUtils.analyzeOffMarketSales net
    [Scenario.largeTransferTo Scenario.burnAddress "1000000000000000000"]
    (Scenario.token "0") 1 s
  = (Ok r, s)
  /\ JS.isFinite (TokenUtils.abovePrice r) = false
  /\ JS.isFinite (TokenUtils.belowPrice r) = false
  /\ JS.isFinite (TokenUtils.percentage r) = false.
Proof. vm_compute. repeat split; reflexivity. Qed.

Section OffMarketBuckets.
Import TokenUtils.
Context (net : Remote).

Lemma accumulateVolumes_buckets tokenInfo largeTransfers : forall acc s v s',
  accumulateVolumes net tokenInfo largeTransfers acc s = (Ok v, s') ->
  exists amounts verdicts,
    Forall2 (fun t a => Spec.amountOf tokenInfo t = Some a) largeTransfers amounts
    /\ length verdicts = length amounts
    /\ totalVolumeTokens v = Spec.fsumFrom (totalVolumeTokens acc) amounts
    /\ abovePriceVolume v
       = Spec.fsumFrom (abovePriceVolume acc) (Spec.bucket false amounts verdicts)
    /\ belowPriceVolume v
       = Spec.fsumFrom (belowPriceVolume acc) (Spec.bucket true amounts verdicts).
Proof.
  induction largeTransfers as [|t rest IH]; intros acc s v s' Hrun; simpl in Hrun.
  - unfold ret in Hrun. injection Hrun as <- <-.
    exists [], []. repeat split; constructor.
  - unfold bind at 1, lift in Hrun.
    destruct (Ethers.formatUnits (Token.value t) (Token.decimals tokenInfo))
      as [formatted|] eqn:Hfmt; [|done].
    unfold ret at 1 in Hrun. unfold bind at 1 in Hrun.
    destruct (isBelowMarketPrice net t s) as [[isBelow|e] s1]; [|done].
    destruct (IH _ _ _ _ Hrun) as (amounts & verdicts & Ham & Hlen & Htot & Habove & Hbelow).
    exists (Ethers.parseFloat formatted :: amounts), (isBelow :: verdicts).
    split; [constructor; [|done]; unfold Spec.amountOf; by rewrite Hfmt|].
    split; [simpl; by rewrite Hlen|].
    destruct isBelow; simpl in *; done.
Qed.

End OffMarketBuckets.

(** C10: whatever the below-market verdicts turn out to be, every large
    transfer's amount is added to the running total and to exactly one of
    the two buckets: the total is the left-to-right floating-point sum of
    the large transfers' amounts, the above bucket that of the amounts
    judged not below, the below bucket that of the amounts judged below,
    and the reported USD volume is the total times the price (the reported
    percentages are these buckets valued at the price over the market
    cap). *)
Theorem off_market_buckets_partition
    (net : Remote) (transfers : list Token.TokenTransfer) (tokenInfo : Token.TokenInfo)
    (currentPrice : float) (s s' : State) (r : TokenUtils.OffMarketSales) :
  transfers <> [] ->
  PrimFloat.leb currentPrice 0 = false ->
  TokenUtils.analyzeOffMarketSales net transfers tokenInfo currentPrice s = (Ok r, s') ->
  exists (amounts : list float) (verdicts : list bool),
    Forall2 (fun t a => Spec.amountOf tokenInfo t = Some a)
            (filter (fun t => Token.isLargeTransfer t = true) transfers) amounts
    /\ length verdicts = length amounts
    /\ let total := Spec.fsumFrom 0 amounts in
       let above := Spec.fsumFrom 0 (Spec.bucket false amounts verdicts) in
       let below := Spec.fsumFrom 0 (Spec.bucket true amounts verdicts) in
       let cap := TokenUtils.calculateMarketCap (Token.totalSupply tokenInfo)
                    (Token.decimals tokenInfo) currentPrice in
       TokenUtils.volumeUSD r = (total * currentPrice)%float
       /\ TokenUtils.abovePrice r = (above * currentPrice / cap * 100)%float
       /\ TokenUtils.belowPrice r = (below * currentPrice / cap * 100)%float.
Proof.
  intros Hne Hpos Hrun. unfold TokenUtils.analyzeOffMarketSales in Hrun.
  destruct transfers as [|t0 rest]; [done|].
  rewrite Hpos in Hrun. cbn [length Nat.eqb orb] in Hrun.
  unfold bind at 1, lift in Hrun.
  destruct (Ethers.formatUnits _ _) as [formattedSupply|]; [|done].
  unfold ret at 1 in Hrun. unfold bind at 1 in Hrun.
  destruct (TokenUtils.accumulateVolumes _ _ _ _ _) as [[v|e] s1] eqn:Hacc; [|done].
  unfold ret in Hrun. injection Hrun as <- <-.
  destruct (accumulateVolumes_buckets net _ _ _ _ _ _ Hacc)
    as (amounts & verdicts & Ham & Hlen & Htot & Habove & Hbelow).
  exists amounts, verdicts. split; [exact Ham|]. split; [exact Hlen|].
  cbn [TokenUtils.volumeUSD TokenUtils.abovePrice TokenUtils.belowPrice].
  cbn [TokenUtils.totalVolumeTokens TokenUtils.abovePriceVolume
       TokenUtils.belowPriceVolume] in Htot, Habove, Hbelow.
  rewrite Htot, Habove, Hbelow. repeat split; reflexivity.
Qed.

(** Three large transfers of 0.3, 0.2 and 0.1 token at a price of 2. *)
Lemma off_market_buckets_three_transfers :
  exists (amounts : list float) (verdicts : list bool) r s',
    TokenUtils.analyzeOffMarketSales Scenario.unreachable Scenario.threeTransfers
      (Scenario.token "1000000000000000000") 2 Scenario.fresh = (Ok r, s')
    /\ length amounts = 3%nat /\ length verdicts = 3%nat
    /\ TokenUtils.volumeUSD r = (Spec.fsumFrom 0 amounts * 2)%float.
Proof.
  destruct (TokenUtils.analyzeOffMarketSales Scenario.unreachable Scenario.threeTransfers
              (Scenario.token "1000000000000000000") 2 Scenario.fresh)
    as [[r|e] s'] eqn:Hrun; [|vm_compute in Hrun; discriminate].
  destruct (off_market_buckets_partition Scenario.unreachable Scenario.threeTransfers
              (Scenario.token "1000000000000000000") 2 Scenario.fresh s' r
              ltac:(discriminate) eq_refl Hrun)
    as (amounts & verdicts & Ham & Hlen & Hvol & _).
  exists amounts, verdicts, r, s'. split; [reflexivity|].
  apply Forall2_length in Ham. simpl in Ham. 
  split; [lia|]. split; [lia|]. exact Hvol.
Defined.

(** C10, as stated, fails in binary64 arithmetic: with amounts 0.3, 0.2 and
    0.1 where the second is judged below market and the others are not,
    the buckets hold 0.3 + 0.1 and 0.2, whose sum differs from the running
    total (0.3 + 0.2) + 0.1 in the last place. *)
Lemma off_market_buckets_sum_differs_from_total :
  exists v s',
    TokenUtils.accumulateVolumes Scenario.unreachable
      (Scenario.token "1000000000000000000") Scenario.threeTransfers
      Scenario.noVolume Scenario.fresh = (Ok v, s')
    /\ PrimFloat.eqb (TokenUtils.abovePriceVolume v + TokenUtils.belowPriceVolume v)
                     (TokenUtils.totalVolumeTokens v) = false
    /\ PrimFloat.ltb (TokenUtils.totalVolumeTokens v)
                     (TokenUtils.abovePriceVolume v + TokenUtils.belowPriceVolume v) = true.
Proof.
  do 2 eexists. split; [vm_compute; reflexivity|].
  vm_compute. split; reflexivity.
Qed.

(** ** The event scan *)

Section EventScan.
Import UseTokenData.
Context (net : Remote).

Lemma scanChunks_cap provider tokenAddress chunks : forall acc s,
  (length acc <= 2000)%nat ->
  exists all s' n,
    scanChunks net provider tokenAddress chunks acc s = (Ok all, s')
    /\ (n <= length chunks)%nat
    /\ clock s' = (clock s + n)%nat
    /\ rpcLog s' = rpcLog s ++ map (Spec.chunkQuery provider tokenAddress) (take n chunks)
    /\ ((n < length chunks)%nat -> (2000 < length all)%nat)
    /\ ((2000 < length all)%nat ->
        exists before events k chunk,
          all = before ++ events /\ (length before <= 2000)%nat
          /\ n = S k /\ chunks !! k = Some chunk
          /\ logsAt net (clock s + k) provider tokenAddress chunk.1 chunk.2
             = Some events).
Proof.
  induction chunks as [|[chunkStart chunkEnd] rest IH]; intros acc s Hacc; simpl.
  - exists acc, s, 0%nat. split; [done|]. split; [done|]. split; [lia|].
    split; [by rewrite app_nil_r|]. split; intros; lia.
  - unfold bind at 1. rewrite attempt_run. unfold queryFilter. rewrite remote_run.
    cbn [fst snd].
    set (s1 := tick (logCall (QueryFilter provider tokenAddress chunkStart chunkEnd) s)).
    destruct (logsAt net (clock s) provider tokenAddress chunkStart chunkEnd)
      as [events|] eqn:Hlogs.
    + destruct (2000 <? length (acc ++ events))%nat eqn:Hcap.
      * apply Nat.ltb_lt in Hcap.
        exists (acc ++ events), s1, 1%nat. split; [done|].
        split; [simpl; lia|]. split; [simpl; lia|]. split; [done|].
        split; [done|]. intros _.
        exists acc, events, 0%nat, (chunkStart, chunkEnd).
        rewrite Nat.add_0_r. done.
      * apply Nat.ltb_ge in Hcap.
        destruct (IH (acc ++ events) s1 Hcap)
          as (all & s' & n & Hrun & Hn & Hclock & Hlog & Hearly & Hover).
        exists all, s', (S n). split; [done|]. split; [simpl; lia|].
        split; [rewrite Hclock; simpl; lia|].
        split; [rewrite Hlog; simpl; by rewrite <- app_assoc|].
        split; [intros; apply Hearly; simpl in *; lia|].
        intros Hall. destruct (Hover Hall) as (before & evs & k & chunk & H).
        destruct H as (-> & Hb & -> & Hk & Hat).
        exists before, evs, (S k), chunk. repeat split; try done.
        by replace (clock s + S k)%nat with (clock s1 + k)%nat by (simpl; lia).
    + destruct (IH acc s1 Hacc)
        as (all & s' & n & Hrun & Hn & Hclock & Hlog & Hearly & Hover).
      exists all, s', (S n). split; [done|]. split; [simpl; lia|].
      split; [rewrite Hclock; simpl; lia|].
      split; [rewrite Hlog; simpl; by rewrite <- app_assoc|].
      split; [intros; apply Hearly; simpl in *; lia|].
      intros Hall. destruct (Hover Hall) as (before & evs & k & chunk & H).
      destruct H as (-> & Hb & -> & Hk & Hat).
      exists before, evs, (S k), chunk. repeat split; try done.
      by replace (clock s + S k)%nat with (clock s1 + k)%nat by (simpl; lia).
Qed.

End EventScan.

(** C4: the scan never fails and queries a prefix of the chunks, in order.
    The cap is checked after a chunk's events are appended, and the scan
    stops early only once the accumulator holds more than 2000 events: if
    some chunk is left unqueried the result exceeds 2000, and a result
    that exceeds 2000 is at most 2000 earlier events followed by the events
    of the last chunk queried. *)
Theorem scan_stops_once_cap_exceeded
    (net : Remote) (provider : Provider) (tokenAddress : string)
    (fromBlock currentBlock : Z) (s : State) :
  let chunks := UseTokenData.chunkRanges currentBlock 10000 fromBlock in
  exists all s' n,
    UseTokenData.scanChunks net provider tokenAddress chunks [] s = (Ok all, s')
    /\ (n <= length chunks)%nat
    /\ rpcLog s' = rpcLog s ++ map (Spec.chunkQuery provider tokenAddress) (take n chunks)
    /\ ((n < length chunks)%nat -> (2000 < length all)%nat)
    /\ ((2000 < length all)%nat ->
        exists before events k chunk,
          all = before ++ events /\ (length before <= 2000)%nat
          /\ n = S k /\ chunks !! k = Some chunk
          /\ logsAt net (clock s + k) provider tokenAddress chunk.1 chunk.2
             = Some events).
Proof.
  intros chunks.
  destruct (scanChunks_cap net provider tokenAddress chunks [] s ltac:(simpl; lia))
    as (all & s' & n & Hrun & Hn & _ & Hlog & Hearly & Hover).
  by exists all, s', n.
Qed.

(** C4, as stated, fails: a chunk that answers with 2001 events takes the
    accumulator past the cap (the scan then stops, two chunks unqueried);
    and an accumulator that has reached exactly 2000 does not stop the
    scan (all three chunks are queried). *)
Lemma scan_exceeds_cap_and_passes_2000 :
  (exists all s',
     UseTokenData.scanChunks Scenario.flood "rpc" "0xToken"
       (UseTokenData.chunkRanges 25000 10000 0) [] Scenario.fresh = (Ok all, s')
     /\ length all = 2001%nat /\ length (rpcLog s') = 1%nat)
  /\ (exists all s',
        UseTokenData.scanChunks Scenario.brimful "rpc" "0xToken"
          (UseTokenData.chunkRanges 25000 10000 0) [] Scenario.fresh = (Ok all, s')
        /\ length all = 2000%nat /\ length (rpcLog s') = 3%nat).
Proof.
  split; do 2 eexists; (split; [vm_compute; reflexivity|]);
    vm_compute; split; reflexivity.
Qed.

(** ** The orchestration *)

Section Orchestration.
Import UseTokenData.
Context (net : Remote) (isAddress : string -> bool).

(** A handler that returns a value turns any block into one that never
    throws. *)
Lemma try_catch_ret_Ok {A} (m : M A) (a0 : A) s :
  exists a s', try_catch m (fun _ => ret a0) s = (Ok a, s').
Proof. unfold try_catch, ret. destruct (m s) as [[a|e] s']; eauto. Qed.

(** A handler that rethrows [e0] makes [e0] the only error. *)
Lemma try_catch_throw_only {A} (m : M A) (e0 e : Error) s s' :
  try_catch m (fun _ => throw e0) s = (Throw e, s') -> e = e0.
Proof.
  unfold try_catch, throw. destruct (m s) as [[a|e1] s1]; intros H; congruence.
Qed.

Lemma connectWithRetries_outcome chainId n : forall s r s',
  connectWithRetries net chainId (S n) s = (r, s') ->
  (exists provider, r = Ok (Some provider)) \/ r = Throw ConnectionFailed.
Proof.
  induction n as [|n IH]; intros s r s' Hrun; simpl in Hrun;
    unfold bind at 1 in Hrun; rewrite attempt_run in Hrun;
    destruct (tryConnectToNetwork net chainId s) as [[provider|e] s1];
    cbn [fst snd] in Hrun.
  - left. exists provider. unfold ret in Hrun. congruence.
  - right. unfold throw in Hrun. congruence.
  - left. exists provider. unfold ret in Hrun. congruence.
  - by apply (IH s1 r s').
Qed.

Lemma retrieveTransfers_Ok provider tokenAddress tokenInfo fromBlock currentBlock s :
  exists recent large s',
    retrieveTransfers net provider tokenAddress tokenInfo fromBlock currentBlock s
    = (Ok (recent, large), s')
    /\ large = filter (fun t => Token.isLargeTransfer t = true) recent.
Proof.
  unfold retrieveTransfers, try_catch. cbv zeta.
  unfold bind at 1.
  destruct (scanChunks _ _ _ _ _ _) as [[allEvents|e] s1];
    [|by exists [], [], s1].
  destruct (0 <? length allEvents)%nat; [|by exists [], [], s1].
  unfold bind at 1.
  destruct (processTransferEvents _ _ _ _ _) as [[processed|e] s2];
    [|by exists [], [], s2].
  by eexists _, _, s2.
Qed.

Lemma addOffMarketSales_Ok marketData priceUsd largeTransfers tokenInfo s :
  exists md s',
    addOffMarketSales net marketData priceUsd largeTransfers tokenInfo s = (Ok md, s').
Proof.
  unfold addOffMarketSales.
  destruct marketData as [md|], priceUsd as [p|]; try by eexists _, _.
  destruct (_ && _); [apply try_catch_ret_Ok|by eexists _, _].
Qed.

(** What the pipeline does once a provider, a descriptor and the head
    number are in hand. *)
Lemma fetchTokenData_after_head tokenAddress chainId priceUsd s provider s1
    tokenInfo s2 currentBlock :
  connectWithRetries net chainId 3 s = (Ok (Some provider), s1) ->
  withTimeout net (TokenUtils.getTokenInfo net isAddress tokenAddress provider) s1
  = (Ok tokenInfo, s2) ->
  blockNumberAt net (clock s2) provider = Some currentBlock ->
  exists m s',
    fetchTokenData net isAddress tokenAddress chainId priceUsd s = (Ok m, s')
    /\ Token.largeTransfers m
       = filter (fun t => Token.isLargeTransfer t = true) (Token.recentTransfers m).
Proof.
  intros Hconn Hinfo Hhead. unfold fetchTokenData. cbv zeta.
  rewrite (bind_Ok _ _ _ _ _ Hconn).
  unfold bind at 1, try_catch at 1. rewrite Hinfo.
  unfold bind at 1, try_catch at 1, getBlockNumber. rewrite remote_run, Hhead.
  destruct (retrieveTransfers_Ok provider tokenAddress tokenInfo
              (Z.max 0 (currentBlock - 6500 * 30)) currentBlock
              (tick (logCall (GetBlockNumber provider) s2)))
    as (recent & large & s3 & Hret & Hlarge).
  rewrite (bind_Ok _ _ _ _ _ Hret).
  destruct (addOffMarketSales_Ok (computeMarketData tokenInfo priceUsd) priceUsd
              large tokenInfo s3) as (md & s4 & Hmd).
  rewrite (bind_Ok _ _ _ _ _ Hmd).
  eexists _, s4. split; [reflexivity|]. exact Hlarge.
Qed.

(** Every run of the pipeline falls in one of four cases. *)
Lemma fetchTokenData_cases tokenAddress chainId priceUsd s :
  (exists s', connectWithRetries net chainId 3 s = (Throw ConnectionFailed, s')
              /\ fetchTokenData net isAddress tokenAddress chainId priceUsd s
                 = (Throw ConnectionFailed, s'))
  \/ (exists provider s1 e s',
        connectWithRetries net chainId 3 s = (Ok (Some provider), s1)
        /\ withTimeout net (TokenUtils.getTokenInfo net isAddress tokenAddress provider) s1
           = (Throw e, s')
        /\ fetchTokenData net isAddress tokenAddress chainId priceUsd s
           = (Throw TokenInfoFailed, s'))
  \/ (exists provider s1 tokenInfo s2,
        connectWithRetries net chainId 3 s = (Ok (Some provider), s1)
        /\ withTimeout net (TokenUtils.getTokenInfo net isAddress tokenAddress provider) s1
           = (Ok tokenInfo, s2)
        /\ ((blockNumberAt net (clock s2) provider = None
             /\ fetchTokenData net isAddress tokenAddress chainId priceUsd s
                = (Throw CurrentBlockFailed, tick (logCall (GetBlockNumber provider) s2)))
            \/ (exists m s',
                  fetchTokenData net isAddress tokenAddress chainId priceUsd s = (Ok m, s')
                  /\ Token.largeTransfers m
                     = filter (fun t => Token.isLargeTransfer t = true)
                              (Token.recentTransfers m)))).
Proof.
  destruct (connectWithRetries net chainId 3 s) as [r s1] eqn:Hconn.
  destruct (connectWithRetries_outcome chainId 2 s r s1 Hconn) as [[provider ->]| ->].
  - right.
    destruct (withTimeout net (TokenUtils.getTokenInfo net isAddress tokenAddress provider) s1)
      as [[tokenInfo|e] s2] eqn:Hinfo.
    + right. exists provider, s1, tokenInfo, s2. split; [done|]. split; [done|].
      destruct (blockNumberAt net (clock s2) provider) as [currentBlock|] eqn:Hhead.
      * right. by eapply fetchTokenData_after_head.
      * left. split; [done|]. unfold fetchTokenData. cbv zeta.
        rewrite (bind_Ok _ _ _ _ _ Hconn).
        unfold bind at 1, try_catch at 1. rewrite Hinfo.
        unfold bind at 1, try_catch at 1, getBlockNumber. by rewrite remote_run, Hhead.
    + left. exists provider, s1, e, s2. split; [done|]. split; [done|].
      unfold fetchTokenData. cbv zeta. rewrite (bind_Ok _ _ _ _ _ Hconn).
      unfold bind at 1, try_catch at 1. by rewrite Hinfo.
  - left. exists s1. split; [done|]. unfold fetchTokenData. cbv zeta.
    by rewrite (bind_Throw _ _ _ _ _ Hconn).
Qed.

End Orchestration.

(** C3: the pipeline can fail at three points only: while connecting,
    while fetching the token descriptor, and when the head block number
    that opens range determination cannot be read.  In every execution in
    which the connection succeeds, the descriptor is fetched and the head
    number is read, the later stages (transfer retrieval, block resolution,
    classification, off-market computation) do not make it fail: it returns
    a TokenMetrics. *)
Theorem pipeline_fails_only_up_to_head_number
    (net : Remote) (isAddress : string -> bool) (tokenAddress : string)
    (chainId : Z) (priceUsd : option float) (s : State) :
  let connect := UseTokenData.connectWithRetries net chainId 3 in
  let describe provider :=
    withTimeout net (TokenUtils.getTokenInfo net isAddress tokenAddress provider) in
  let run := UseTokenData.fetchTokenData net isAddress tokenAddress chainId priceUsd in
  (forall e s',
     run s = (Throw e, s') ->
     (e = ConnectionFailed /\ connect s = (Throw ConnectionFailed, s'))
     \/ (e = TokenInfoFailed
         /\ exists provider s1 e1,
              connect s = (Ok (Some provider), s1)
              /\ describe provider s1 = (Throw e1, s'))
     \/ (e = CurrentBlockFailed
         /\ exists provider s1 tokenInfo s2,
              connect s = (Ok (Some provider), s1)
              /\ describe provider s1 = (Ok tokenInfo, s2)
              /\ blockNumberAt net (clock s2) provider = None))
  /\ (forall provider s1 tokenInfo s2 currentBlock,
        connect s = (Ok (Some provider), s1) ->
        describe provider s1 = (Ok tokenInfo, s2) ->
        blockNumberAt net (clock s2) provider = Some currentBlock ->
        exists m s', run s = (Ok m, s')).
Proof.
  intros connect describe run. split.
  - intros e s' Hrun. subst connect describe run.
    destruct (fetchTokenData_cases net isAddress tokenAddress chainId priceUsd s)
      as [(s1 & Hc & Hf)|[(p & s1 & e1 & s2 & Hc & Hd & Hf)
                         |(p & s1 & ti & s2 & Hc & Hd & [[Hh Hf]|(m & s3 & Hf & _)])]];
      rewrite Hf in Hrun.
    + left. injection Hrun as <- <-. done.
    + right. left. injection Hrun as <- <-. split; [done|]. by exists p, s1, e1.
    + right. right. injection Hrun as <- <-. split; [done|]. by exists p, s1, ti, s2.
    + discriminate.
  - intros provider s1 tokenInfo s2 currentBlock Hc Hd Hh. subst connect describe run.
    destruct (fetchTokenData_after_head net isAddress tokenAddress chainId priceUsd s
                provider s1 tokenInfo s2 currentBlock Hc Hd Hh) as (m & s' & Hf & _).
    by exists m, s'.
Qed.

(** On a healthy endpoint the pipeline returns its three transfers. *)
Lemma pipeline_reaches_done_on_healthy_endpoint :
  exists m s',
    UseTokenData.fetchTokenData Scenario.healthy Scenario.anyAddress Scenario.daiAddress
      1 (Some 2%float) Scenario.fresh = (Ok m, s').
Proof.
  eapply (proj2 (pipeline_fails_only_up_to_head_number Scenario.healthy
                   Scenario.anyAddress Scenario.daiAddress 1 (Some 2%float)
                   Scenario.fresh)).
  - vm_compute. reflexivity.
  - vm_compute. reflexivity.
  - reflexivity.
Defined.

(** C3, as stated, fails: with the connection up and the descriptor
    fetched, the pipeline still throws when the head block number cannot
    be read. *)
Lemma pipeline_fails_after_descriptor :
  exists provider s1 tokenInfo s2 s',
    UseTokenData.connectWithRetries Scenario.headLost 1 3 Scenario.fresh
    = (Ok (Some provider), s1)
    /\ withTimeout Scenario.headLost
         (TokenUtils.getTokenInfo Scenario.headLost Scenario.anyAddress
            Scenario.daiAddress provider) s1
       = (Ok tokenInfo, s2)
    /\ UseTokenData.fetchTokenData Scenario.headLost Scenario.anyAddress
         Scenario.daiAddress 1 (Some 2%float) Scenario.fresh
       = (Throw CurrentBlockFailed, s').
Proof.
  do 5 eexists. split; [vm_compute; reflexivity|].
  split; vm_compute; reflexivity.
Qed.

(** C9: in every TokenMetrics the pipeline returns, [largeTransfers] is
    [recentTransfers] filtered by the large flag: exactly the transfers
    flagged large, in the same relative order, hence a subsequence. *)
Theorem large_transfers_subsequence
    (net : Remote) (isAddress : string -> bool) (tokenAddress : string)
    (chainId : Z) (priceUsd : option float) (s s' : State) (m : Token.TokenMetrics) :
  UseTokenData.fetchTokenData net isAddress tokenAddress chainId priceUsd s = (Ok m, s') ->
  Token.largeTransfers m
  = filter (fun t => Token.isLargeTransfer t = true) (Token.recentTransfers m)
  /\ Token.largeTransfers m `sublist_of` Token.recentTransfers m.
Proof.
  intros Hrun.
  assert (Hfilter : Token.largeTransfers m
                    = filter (fun t => Token.isLargeTransfer t = true)
                             (Token.recentTransfers m)).
  { destruct (fetchTokenData_cases net isAddress tokenAddress chainId priceUsd s)
      as [(s1 & _ & Hf)|[(p & s1 & e1 & s2 & _ & _ & Hf)
                        |(p & s1 & ti & s2 & _ & _ & [[_ Hf]|(m' & s3 & Hf & Hl)])]];
      rewrite Hf in Hrun; try discriminate.
    by injection Hrun as <- <-. }
  split; [exact Hfilter|]. rewrite Hfilter. apply sublist_filter.
Qed.

(** On the healthy endpoint: three transfers, of which the two large ones
    are kept in order. *)
Lemma large_transfers_on_healthy_endpoint :
  exists m s',
    UseTokenData.fetchTokenData Scenario.healthy Scenario.anyAddress Scenario.daiAddress
      1 (Some 2%float) Scenario.fresh = (Ok m, s')
    /\ map Token.value (Token.recentTransfers m)
       = ["1000000000000000000"; "50000000000000000000"; "10000000000000000000"]%string
    /\ map Token.value (Token.largeTransfers m)
       = ["50000000000000000000"; "10000000000000000000"]%string
    /\ Token.largeTransfers m `sublist_of` Token.recentTransfers m.
Proof.
  destruct (UseTokenData.fetchTokenData Scenario.healthy Scenario.anyAddress
              Scenario.daiAddress 1 (Some 2%float) Scenario.fresh)
    as [[m|e] s'] eqn:Hrun; [|vm_compute in Hrun; discriminate].
  exists m, s'. split; [reflexivity|].
  pose proof (large_transfers_subsequence _ _ _ _ _ _ _ _ Hrun) as [_ Hsub].
  assert (Hm : Ok m = (UseTokenData.fetchTokenData Scenario.healthy Scenario.anyAddress
                         Scenario.daiAddress 1 (Some 2%float) Scenario.fresh).1)
    by (by rewrite Hrun).
  vm_compute in Hm. injection Hm as ->.
  split; [reflexivity|]. split; [reflexivity|]. exact Hsub.
Defined.

(** * Further properties of the code *)

(** ** States of one session *)

Section Frames.

Lemma later_refl s : Spec.later s s.
Proof. unfold Spec.later. split; [lia|]. split; reflexivity. Qed.

Lemma later_trans s1 s2 s3 : Spec.later s1 s2 -> Spec.later s2 s3 -> Spec.later s1 s3.
Proof.
  intros (Hc1 & Hl1 & Hb1) (Hc2 & Hl2 & Hb2). split; [lia|].
  split; etrans; eassumption.
Qed.

Lemma quietlyLater_refl s : Spec.quietlyLater s s.
Proof. split; [apply later_refl|reflexivity]. Qed.

Lemma quietlyLater_trans s1 s2 s3 :
  Spec.quietlyLater s1 s2 -> Spec.quietlyLater s2 s3 -> Spec.quietlyLater s1 s3.
Proof.
  intros [H1 E1] [H2 E2]. split; [by eapply later_trans|]. by rewrite E2.
Qed.

Lemma laterFor_refl chainId s : Spec.laterFor chainId s s.
Proof. split; [apply later_refl|done]. Qed.

Lemma laterFor_trans chainId s1 s2 s3 :
  Spec.laterFor chainId s1 s2 -> Spec.laterFor chainId s2 s3 ->
  Spec.laterFor chainId s1 s3.
Proof.
  intros [H1 E1] [H2 E2]. split; [by eapply later_trans|].
  intros c Hc. by rewrite E2, E1.
Qed.

Lemma quietlyLater_laterFor chainId s s' :
  Spec.quietlyLater s s' -> Spec.laterFor chainId s s'.
Proof. intros [H E]. split; [done|]. intros c _. by rewrite E. Qed.

Context (R : State -> State -> Prop).
Context (R_refl : forall s, R s s).
Context (R_trans : forall s1 s2 s3, R s1 s2 -> R s2 s3 -> R s1 s3).

Lemma keeps_ret {A} (a : A) : Spec.keeps R (ret a).
Proof. intros s. apply R_refl. Qed.

Lemma keeps_throw {A} (e : Error) : Spec.keeps R (@throw A e).
Proof. intros s. apply R_refl. Qed.

Lemma keeps_get : Spec.keeps R get.
Proof. intros s. apply R_refl. Qed.

Lemma keeps_lift {A} (o : option A) : Spec.keeps R (lift o).
Proof. destruct o; [apply keeps_ret|apply keeps_throw]. Qed.

Lemma keeps_bind {A B} (m : M A) (k : A -> M B) :
  Spec.keeps R m -> (forall a, Spec.keeps R (k a)) -> Spec.keeps R (bind m k).
Proof.
  intros Hm Hk s. unfold bind. specialize (Hm s).
  destruct (m s) as [[a|e] s1]; simpl in *; [|done].
  eapply R_trans; [exact Hm|apply Hk].
Qed.

Lemma keeps_try_catch {A} (m : M A) (h : Error -> M A) :
  Spec.keeps R m -> (forall e, Spec.keeps R (h e)) -> Spec.keeps R (try_catch m h).
Proof.
  intros Hm Hh s. unfold try_catch. specialize (Hm s).
  destruct (m s) as [[a|e] s1]; simpl in *; [done|].
  eapply R_trans; [exact Hm|apply Hh].
Qed.

Lemma keeps_attempt {A} (m : M A) : Spec.keeps R m -> Spec.keeps R (attempt m).
Proof. intros Hm s. rewrite attempt_run. apply Hm. Qed.

End Frames.

Lemma later_tick_logCall c s : Spec.later s (tick (logCall c s)).
Proof.
  unfold Spec.later. simpl. split; [lia|]. split; [by apply prefix_app_r|done].
Qed.

Lemma later_tick s : Spec.later s (tick s).
Proof. unfold Spec.later. simpl. split; [lia|]. done. Qed.

Lemma keeps_remote {A} (c : Call) (answer : nat -> option A) :
  Spec.keeps Spec.quietlyLater (remote c answer).
Proof.
  intros s. rewrite remote_run. split; [apply later_tick_logCall|done].
Qed.

Lemma keeps_observe {A} (reading : nat -> A) :
  Spec.keeps Spec.quietlyLater (observe reading).
Proof. intros s. split; [apply later_tick|done]. Qed.

Ltac quiet_step :=
  first
    [ apply keeps_ret; apply quietlyLater_refl
    | apply keeps_throw; apply quietlyLater_refl
    | apply keeps_get; apply quietlyLater_refl
    | apply keeps_lift; apply quietlyLater_refl
    | apply keeps_remote
    | apply keeps_observe
    | apply keeps_attempt
    | apply keeps_bind; [apply quietlyLater_trans | | intros ?]
    | apply keeps_try_catch; [apply quietlyLater_trans | | intros ?] ].

Ltac quiet := repeat quiet_step.

(** ** The block resolver, continued *)

Section BlockResolver.
Import UseTokenData.
Context (net : Remote).

Lemma fetchBlockAttempts_quiet provider blockNumber n : forall s,
  blockCache s !! blockNumber = None ->
  Spec.quietlyLater s (fetchBlockAttempts net provider blockNumber n s).2.
Proof.
  induction n as [|n IH]; intros s Hmiss; simpl.
  - apply quietlyLater_refl.
  - unfold bind at 1. rewrite attempt_run. unfold getBlock. rewrite remote_run.
    cbn [fst snd].
    destruct (blockAt net (clock s) provider (Number blockNumber)) as [block|].
    + simpl. split; [|done]. unfold Spec.later. simpl.
      split; [lia|]. split; [by apply prefix_app_r|]. by apply insert_subseteq.
    + eapply quietlyLater_trans; [|apply IH; exact Hmiss].
      split; [apply later_tick_logCall|done].
Qed.

Lemma getBlockWithRetries_quiet provider blockNumber n :
  Spec.keeps Spec.quietlyLater (getBlockWithRetries net provider blockNumber n).
Proof.
  intros s. unfold getBlockWithRetries. unfold bind at 1, get.
  destruct (blockCache s !! blockNumber) as [block|] eqn:Hc;
    [apply quietlyLater_refl|].
  unfold bind at 1.
  pose proof (fetchBlockAttempts_quiet provider blockNumber n s Hc) as Hq.
  destruct (fetchBlockAttempts_cache net provider blockNumber n s)
    as (r & s1 & Hrun & _).
  rewrite Hrun in Hq |- *. cbn [snd] in Hq.
  destruct r as [block|]; [exact Hq|].
  eapply quietlyLater_trans; [exact Hq|].
  revert s1 Hrun Hq. 
  assert (Hk : Spec.keeps Spec.quietlyLater
                 (bind (try_catch
                          (bind (getBlock net provider Latest)
                                (fun currentBlock =>
                                   ret (timestamp currentBlock
                                        - (number currentBlock - blockNumber)
                                          * SECONDS_PER_BLOCK)))
                          (fun _ => bind (Date_now net)
                                      (fun now => ret (now / 1000
                                                       - 1000 * SECONDS_PER_BLOCK))))
                       (fun estimatedTimestamp =>
                          ret {| hash := "estimated-" +:+ pretty blockNumber;
                                 number := blockNumber;
                                 timestamp := estimatedTimestamp |}))).
  { unfold getBlock, Date_now. quiet. }
  intros s1 _ _. apply Hk.
Qed.

Lemma getBlockWithRetries_neverThrows provider blockNumber n :
  Spec.neverThrows (getBlockWithRetries net provider blockNumber n).
Proof.
  intros s. unfold getBlockWithRetries. unfold bind at 1, get.
  destruct (blockCache s !! blockNumber) as [block|]; [by eexists _, _|].
  unfold bind at 1.
  destruct (fetchBlockAttempts_cache net provider blockNumber n s)
    as (r & s1 & -> & _).
  destruct r as [block|]; [by eexists _, _|].
  unfold bind at 1, try_catch, bind at 1, getBlock. rewrite remote_run.
  destruct (blockAt net (clock s1) provider Latest); by eexists _, _.
Qed.

End BlockResolver.

Section BlockRetries.
Import UseTokenData.
Context (net : Remote).

Lemma fetchBlockAttempts_success provider blockNumber block : forall n s k,
  (k < n)%nat ->
  (forall j, (j < k)%nat ->
             blockAt net (clock s + j) provider (Number blockNumber) = None) ->
  blockAt net (clock s + k) provider (Number blockNumber) = Some block ->
  fetchBlockAttempts net provider blockNumber n s
  = (Ok (Some block),
     {| clock := clock s + S k;
        rpcLog := rpcLog s ++ replicate (S k) (GetBlock provider (Number blockNumber));
        lastSuccessfulRpcByChain := lastSuccessfulRpcByChain s;
        blockCache := <[blockNumber := block]> (blockCache s) |}).
Proof.
  induction n as [|n IH]; intros s k Hk Hfail Hok; [lia|].
  simpl. unfold bind at 1. rewrite attempt_run. unfold getBlock. rewrite remote_run.
  cbn [fst snd]. destruct k as [|k].
  - rewrite Nat.add_0_r in Hok. rewrite Hok.
    unfold bind, cacheBlock, ret. simpl. f_equal. state_eq.
  - pose proof (Hfail 0%nat ltac:(lia)) as H0. rewrite Nat.add_0_r in H0.
    rewrite H0. rewrite (IH _ k); [f_equal; state_eq|lia| |].
    + intros j Hj. cbn [clock tick logCall].
      replace (S (clock s) + j)%nat with (clock s + S j)%nat by lia.
      apply Hfail. lia.
    + cbn [clock tick logCall].
      by replace (S (clock s) + k)%nat with (clock s + S k)%nat by lia.
Qed.

End BlockRetries.

(** X1: resolving a block never throws, whatever the remote service does,
    and it only moves the session forward: the call log grows at its end,
    blocks already cached stay cached unchanged, and the remembered
    endpoints are not touched. *)
Theorem resolver_never_throws_and_only_adds
    (net : Remote) (provider : Provider) (blockNumber : Z) (maxRetries : nat)
    (s : State) :
  exists block s',
    UseTokenData.getBlockWithRetries net provider blockNumber maxRetries s
    = (Ok block, s')
    /\ Spec.quietlyLater s s'.
Proof.
  destruct (getBlockWithRetries_neverThrows net provider blockNumber maxRetries s)
    as (block & s' & Hrun).
  exists block, s'. split; [exact Hrun|].
  pose proof (getBlockWithRetries_quiet net provider blockNumber maxRetries s) as Hq.
  by rewrite Hrun in Hq.
Qed.

(** X2: a block that is not cached and is first served at attempt [k + 1]
    (of at most [maxRetries]) is returned as served, after exactly [k + 1]
    requests for it, and is stored in the cache under its number; the head
    is not asked for. *)
Theorem resolver_retries_until_served
    (net : Remote) (provider : Provider) (blockNumber : Z) (maxRetries k : nat)
    (s : State) (block : Block) :
  blockCache s !! blockNumber = None ->
  (k < maxRetries)%nat ->
  (forall j, (j < k)%nat ->
             blockAt net (clock s + j) provider (Number blockNumber) = None) ->
  blockAt net (clock s + k) provider (Number blockNumber) = Some block ->
  UseTokenData.getBlockWithRetries net provider blockNumber maxRetries s
  = (Ok block,
     {| clock := clock s + S k;
        rpcLog := rpcLog s ++ replicate (S k) (GetBlock provider (Number blockNumber));
        lastSuccessfulRpcByChain := lastSuccessfulRpcByChain s;
        blockCache := <[blockNumber := block]> (blockCache s) |}).
Proof.
  intros Hmiss Hk Hfail Hok. unfold UseTokenData.getBlockWithRetries.
  unfold bind at 1, get. rewrite Hmiss. unfold bind at 1.
  by rewrite (fetchBlockAttempts_success net provider blockNumber block
                maxRetries s k Hk Hfail Hok).
Qed.

(** Two timeouts, then the block. *)
Lemma resolver_retries_third_time :
  let run := UseTokenData.getBlockWithRetries Scenario.thirdTime "rpc" 100 3
               Scenario.fresh in
  run.1 = Ok Scenario.block100
  /\ rpcLog run.2 = replicate 3 (GetBlock "rpc" (Number 100))
  /\ blockCache run.2 !! 100 = Some Scenario.block100.
Proof.
  intros run. subst run.
  rewrite (resolver_retries_until_served Scenario.thirdTime "rpc" 100 3 2
             Scenario.fresh Scenario.block100).
  - vm_compute. repeat split; reflexivity.
  - reflexivity.
  - lia.
  - intros [|[|j]] Hj; try reflexivity. lia.
  - reflexivity.
Defined.

(** ** Event post-processing *)

Section NeverThrows.

Lemma neverThrows_ret {A} (a : A) : Spec.neverThrows (ret a).
Proof. intros s. by exists a, s. Qed.

Lemma neverThrows_bind {A B} (m : M A) (k : A -> M B) :
  Spec.neverThrows m -> (forall a, Spec.neverThrows (k a)) ->
  Spec.neverThrows (bind m k).
Proof.
  intros Hm Hk s. destruct (Hm s) as (a & s1 & Hrun).
  rewrite (bind_Ok _ _ _ _ _ Hrun). apply Hk.
Qed.

Lemma neverThrows_attempt {A} (m : M A) : Spec.neverThrows (attempt m).
Proof. intros s. rewrite attempt_run. by eexists _, _. Qed.

Lemma neverThrows_try_catch {A} (m : M A) (h : Error -> M A) :
  (forall e, Spec.neverThrows (h e)) -> Spec.neverThrows (try_catch m h).
Proof.
  intros Hh s. unfold try_catch. destruct (m s) as [[a|e] s1]; [by eexists _, _|].
  apply Hh.
Qed.

End NeverThrows.

Section PostProcessing.
Import UseTokenData.
Context (net : Remote).

Lemma settleAll_neverThrows provider batch :
  Spec.neverThrows (settleAll net provider batch).
Proof.
  induction batch as [|n rest IH]; simpl; [apply neverThrows_ret|].
  apply neverThrows_bind; [apply neverThrows_attempt|done].
Qed.

Lemma settleAll_quiet provider batch :
  Spec.keeps Spec.quietlyLater (settleAll net provider batch).
Proof.
  induction batch as [|n rest IH]; simpl; [quiet|].
  apply keeps_bind; [apply quietlyLater_trans| |done].
  apply keeps_attempt, getBlockWithRetries_quiet.
Qed.

Lemma prefetchBlocks_neverThrows provider blockNumbers :
  Spec.neverThrows (prefetchBlocks net provider blockNumbers).
Proof.
  remember (length blockNumbers) as len eqn:Hlen. revert blockNumbers Hlen.
  induction len as [len IH] using lt_wf_ind. intros [|n rest] Hlen.
  - rewrite prefetchBlocks_equation_1. apply neverThrows_ret.
  - rewrite prefetchBlocks_equation_2.
    apply neverThrows_bind; [apply settleAll_neverThrows|]. intros _.
    apply (IH (length (drop batchSize (n :: rest)))); [|done].
    rewrite length_drop. simpl in *. lia.
Qed.

Lemma prefetchBlocks_quiet provider blockNumbers :
  Spec.keeps Spec.quietlyLater (prefetchBlocks net provider blockNumbers).
Proof.
  remember (length blockNumbers) as len eqn:Hlen. revert blockNumbers Hlen.
  induction len as [len IH] using lt_wf_ind. intros [|n rest] Hlen.
  - rewrite prefetchBlocks_equation_1. quiet.
  - rewrite prefetchBlocks_equation_2.
    apply keeps_bind; [apply quietlyLater_trans|apply settleAll_quiet|]. intros _.
    apply (IH (length (drop batchSize (n :: rest)))); [|done].
    rewrite length_drop. simpl in *. lia.
Qed.

Lemma toTransfers_quiet provider tokenInfo events : forall transfers,
  Spec.keeps Spec.quietlyLater (toTransfers net provider tokenInfo events transfers).
Proof.
  induction events as [|event rest IH]; intros transfers; simpl; [quiet|].
  destruct (args event) as [[[from to] value]|]; [|done].
  apply keeps_bind; [apply quietlyLater_trans| |].
  - apply keeps_attempt, getBlockWithRetries_quiet.
  - intros [block|e]; done.
Qed.

Lemma toTransfers_shape provider tokenInfo events : forall transfers s,
  exists new s',
    toTransfers net provider tokenInfo events transfers s = (Ok (transfers ++ new), s')
    /\ Forall2 (Spec.transferOf tokenInfo)
               (filter (fun e => Spec.decoded e = true) events) new.
Proof.
  induction events as [|event rest IH]; intros transfers s; simpl.
  - exists [], s. rewrite app_nil_r. split; [done|constructor].
  - destruct (args event) as [[[from to] value]|] eqn:Hargs.
    + rewrite filter_cons_True by (unfold Spec.decoded; by rewrite Hargs).
      unfold bind at 1. rewrite attempt_run.
      destruct (getBlockWithRetries_neverThrows net provider (blockNumber event) 3 s)
        as (block & s1 & ->). cbn [fst snd].
      destruct (IH (transfers ++
                      [{| Token.transactionHash := transactionHash event;
                          Token.from := from; Token.to := to;
                          Token.value := Ethers.BigNumber_toString value;
                          Token.timestamp := timestamp block;
                          Token.isLargeTransfer :=
                            isLargeTransferCheck (Ethers.BigNumber_toString value)
                                                 (Token.totalSupply tokenInfo) |}]) s1)
        as (new & s' & Hrun & Hshape).
      eexists (_ :: new), s'. split.
      * rewrite Hrun. by rewrite <- app_assoc.
      * constructor; [|done]. exists from, to, value. by repeat split.
    + rewrite filter_cons_False by (unfold Spec.decoded; by rewrite Hargs).
      apply IH.
Qed.

End PostProcessing.

Lemma processTransferEvents_runs
    (net : Remote) (provider : Provider) (events : list Event)
    (tokenInfo : Token.TokenInfo) (s : State) :
  exists transfers s',
    UseTokenData.processTransferEvents net provider events tokenInfo s
    = (Ok transfers, s')
    /\ Forall2 (Spec.transferOf tokenInfo)
               (filter (fun e => Spec.decoded e = true) events) transfers
    /\ Spec.quietlyLater s s'.
Proof.
  unfold UseTokenData.processTransferEvents.
  destruct events as [|event rest].
  - exists [], s. split; [done|]. split; [constructor|apply quietlyLater_refl].
  - cbn [length Nat.eqb].
    destruct (prefetchBlocks_neverThrows net provider
                (UseTokenData.blockKeys (event :: rest)) s) as ([] & s1 & Hpre).
    pose proof (prefetchBlocks_quiet net provider
                  (UseTokenData.blockKeys (event :: rest)) s) as Hq1.
    rewrite Hpre in Hq1. cbn [snd] in Hq1.
    rewrite (bind_Ok _ _ _ _ _ Hpre).
    destruct (toTransfers_shape net provider tokenInfo (event :: rest) [] s1)
      as (new & s' & Hrun & Hshape).
    pose proof (toTransfers_quiet net provider tokenInfo (event :: rest) [] s1) as Hq2.
    rewrite Hrun in Hq2. cbn [snd] in Hq2.
    exists new, s'. split; [exact Hrun|]. split; [exact Hshape|].
    by eapply quietlyLater_trans.
Qed.


(** ** Ordering of the transfers *)

Section Sorting.
Import UseTokenData.

Lemma insertByTimestamp_perm t l : insertByTimestamp t l ≡ₚ t :: l.
Proof.
  induction l as [|u rest IH]; simpl; [done|].
  destruct (Token.timestamp u <=? Token.timestamp t); [done|].
  rewrite IH. apply Permutation_swap.
Qed.

Lemma insertByTimestamp_sorted t l :
  StronglySorted Spec.newerFirst l ->
  StronglySorted Spec.newerFirst (insertByTimestamp t l).
Proof.
  induction 1 as [|u rest Hsorted IH Hall]; simpl.
  - repeat constructor.
  - destruct (Z.leb_spec (Token.timestamp u) (Token.timestamp t)) as [Hle|Hlt].
    + constructor; [by constructor|]. constructor; [exact Hle|].
      eapply Forall_impl; [exact Hall|]. unfold Spec.newerFirst. intros x Hx. lia.
    + constructor; [exact IH|]. rewrite insertByTimestamp_perm.
      constructor; [unfold Spec.newerFirst; lia|exact Hall].
Qed.

Lemma insertByTimestamp_stable (z : Z) t l :
  filter (fun x => Token.timestamp x = z) (insertByTimestamp t l)
  = filter (fun x => Token.timestamp x = z) (t :: l).
Proof.
  induction l as [|u rest IH]; simpl; [done|].
  destruct (Z.leb_spec (Token.timestamp u) (Token.timestamp t)) as [Hle|Hlt]; [done|].
  rewrite (filter_cons _ u), IH, !(filter_cons _ t), (filter_cons _ u).
  destruct (decide (Token.timestamp t = z)) as [Ht|Ht];
    destruct (decide (Token.timestamp u = z)) as [Hu|Hu]; try done.
  lia.
Qed.

Lemma filter_sorted {A} (R : A -> A -> Prop) (P : A -> Prop)
    `{!forall x, Decision (P x)} (l : list A) :
  StronglySorted R l -> StronglySorted R (filter P l).
Proof.
  induction 1 as [|x l Hs IH Hall]; [constructor|].
  rewrite filter_cons. destruct (decide (P x)); [|done].
  constructor; [done|]. apply Forall_forall. intros y Hy.
  apply list_elem_of_filter in Hy as [_ Hy].
  rewrite Forall_forall in Hall. by apply Hall.
Qed.

End Sorting.

(** X4: sorting the processed transfers loses and duplicates nothing, puts
    them most recent first, and keeps transfers with the same timestamp in
    the order they had. *)
Theorem sort_by_timestamp_is_stable_descending (l : list Token.TokenTransfer) :
  UseTokenData.sortByTimestampDesc l ≡ₚ l
  /\ StronglySorted Spec.newerFirst (UseTokenData.sortByTimestampDesc l)
  /\ forall z : Z,
       filter (fun t => Token.timestamp t = z) (UseTokenData.sortByTimestampDesc l)
       = filter (fun t => Token.timestamp t = z) l.
Proof.
  unfold UseTokenData.sortByTimestampDesc. induction l as [|t l (Hperm & Hsorted & Hstable)].
  - repeat split; constructor.
  - simpl. split; [|split].
    + rewrite insertByTimestamp_perm. by constructor.
    + by apply insertByTimestamp_sorted.
    + intros z. rewrite insertByTimestamp_stable, !(filter_cons _ t), Hstable. done.
Qed.

(** ** The orchestration, continued *)

Section PipelineFrames.
Import UseTokenData.
Context (net : Remote) (isAddress : string -> bool).

Lemma keeps_weaken (R1 R2 : State -> State -> Prop) {A} (m : M A) :
  (forall s s', R1 s s' -> R2 s s') -> Spec.keeps R1 m -> Spec.keeps R2 m.
Proof. intros Hw Hm s. apply Hw, Hm. Qed.

Lemma scanChunks_quiet provider tokenAddress chunks : forall allEvents,
  Spec.keeps Spec.quietlyLater (scanChunks net provider tokenAddress chunks allEvents).
Proof.
  induction chunks as [|[chunkStart chunkEnd] rest IH]; intros allEvents; simpl;
    [quiet|].
  apply keeps_bind; [apply quietlyLater_trans| |].
  - unfold queryFilter. quiet.
  - intros [events|e]; [|done].
    destruct (2000 <? length (allEvents ++ events))%nat; [quiet|done].
Qed.

Lemma processTransferEvents_quiet provider events tokenInfo :
  Spec.keeps Spec.quietlyLater (processTransferEvents net provider events tokenInfo).
Proof.
  intros s.
  destruct (processTransferEvents_runs net provider events tokenInfo s)
    as (transfers & s' & Hrun & _ & Hq).
  by rewrite Hrun.
Qed.

Lemma sortByTimestampDesc_sorted (l : list Token.TokenTransfer) :
  StronglySorted Spec.newerFirst (sortByTimestampDesc l).
Proof.
  unfold sortByTimestampDesc. induction l as [|t l IH]; simpl; [constructor|].
  by apply insertByTimestamp_sorted.
Qed.

Lemma retrieveTransfers_runs provider tokenAddress tokenInfo fromBlock currentBlock s :
  exists recent s',
    retrieveTransfers net provider tokenAddress tokenInfo fromBlock currentBlock s
    = (Ok (recent, filter (fun t => Token.isLargeTransfer t = true) recent), s')
    /\ StronglySorted Spec.newerFirst recent
    /\ Spec.quietlyLater s s'.
Proof.
  unfold retrieveTransfers, try_catch. cbv zeta. unfold bind at 1.
  pose proof (scanChunks_quiet provider tokenAddress
                (chunkRanges currentBlock 10000 fromBlock) [] s) as Hq1.
  destruct (scanChunks _ _ _ _ _ _) as [[allEvents|e] s1]; cbn [snd] in Hq1;
    [|exists [], s1; repeat split; [constructor|apply Hq1..]].
  destruct (0 <? length allEvents)%nat;
    [|exists [], s1; repeat split; [constructor|apply Hq1..]].
  unfold bind at 1.
  destruct (processTransferEvents_runs net provider allEvents tokenInfo s1)
    as (processed & s2 & -> & _ & Hq2).
  exists (sortByTimestampDesc processed), s2. split; [done|].
  split; [apply sortByTimestampDesc_sorted|]. by eapply quietlyLater_trans.
Qed.

Lemma connectToFirst_laterFor chainId rpcUrls :
  Spec.keeps (Spec.laterFor chainId) (connectToFirst net chainId rpcUrls).
Proof.
  induction rpcUrls as [|url rest IH]; simpl; [apply keeps_throw, laterFor_refl|].
  apply keeps_bind; [apply laterFor_trans| |].
  - apply (keeps_weaken Spec.quietlyLater); [apply quietlyLater_laterFor|].
    unfold getBlockNumber. quiet.
  - intros [n|e]; [|done]. intros s. unfold bind, setLastSuccessful, ret. simpl.
    split; [unfold Spec.later; simpl; by repeat split|].
    intros c Hc. simpl. by rewrite lookup_insert_ne.
Qed.

Lemma connectWithRetries_laterFor chainId n :
  Spec.keeps (Spec.laterFor chainId) (connectWithRetries net chainId n).
Proof.
  induction n as [|n IH]; simpl; [apply keeps_ret, laterFor_refl|].
  apply keeps_bind; [apply laterFor_trans| |].
  - apply keeps_attempt. unfold tryConnectToNetwork.
    apply keeps_bind; [apply laterFor_trans|apply keeps_get, laterFor_refl|].
    intros s0. apply connectToFirst_laterFor.
  - intros [provider|e]; [apply keeps_ret, laterFor_refl|].
    destruct (n =? 0)%nat; [apply keeps_throw, laterFor_refl|done].
Qed.

Lemma getTokenInfo_quiet tokenAddress provider :
  Spec.keeps Spec.quietlyLater
    (TokenUtils.getTokenInfo net isAddress tokenAddress provider).
Proof.
  unfold TokenUtils.getTokenInfo.
  apply keeps_try_catch; [apply quietlyLater_trans| |intros; quiet].
  destruct (negb (isAddress tokenAddress)); [quiet|].
  apply keeps_bind; [apply quietlyLater_trans|unfold getNetwork; quiet|intros chain].
  apply keeps_bind; [apply quietlyLater_trans|unfold getCode; quiet|intros code].
  destruct (String.eqb code "0x"); [quiet|].
  unfold callString, callNumber. quiet.
Qed.

Lemma isBelowMarketPrice_quiet transfer :
  Spec.keeps Spec.quietlyLater (TokenUtils.isBelowMarketPrice net transfer).
Proof.
  unfold TokenUtils.isBelowMarketPrice.
  destruct (String.prefix "0x00" (Token.to transfer)); [quiet|].
  apply keeps_bind; [apply quietlyLater_trans|quiet|intros valueInEther].
  apply keeps_bind; [apply quietlyLater_trans|unfold Date_now; quiet|intros now].
  destruct (_ && _); unfold Math_random; quiet.
Qed.

Lemma accumulateVolumes_quiet tokenInfo largeTransfers : forall acc,
  Spec.keeps Spec.quietlyLater
    (TokenUtils.accumulateVolumes net tokenInfo largeTransfers acc).
Proof.
  induction largeTransfers as [|t rest IH]; intros acc; simpl; [quiet|].
  apply keeps_bind; [apply quietlyLater_trans|quiet|intros formatted].
  apply keeps_bind; [apply quietlyLater_trans|apply isBelowMarketPrice_quiet|].
  intros isBelow. apply IH.
Qed.

Lemma addOffMarketSales_quiet marketData priceUsd largeTransfers tokenInfo :
  Spec.keeps Spec.quietlyLater
    (addOffMarketSales net marketData priceUsd largeTransfers tokenInfo).
Proof.
  unfold addOffMarketSales.
  destruct marketData as [md|], priceUsd as [p|]; try quiet.
  destruct (_ && _); [|quiet].
  apply keeps_try_catch; [apply quietlyLater_trans| |intros; quiet].
  apply keeps_bind; [apply quietlyLater_trans| |intros; quiet].
  unfold TokenUtils.analyzeOffMarketSales. destruct (_ || _); [quiet|].
  apply keeps_bind; [apply quietlyLater_trans|quiet|intros formattedSupply].
  apply keeps_bind; [apply quietlyLater_trans|apply accumulateVolumes_quiet|].
  intros v. quiet.
Qed.

Lemma fetchTokenData_laterFor tokenAddress chainId priceUsd :
  Spec.keeps (Spec.laterFor chainId)
    (fetchTokenData net isAddress tokenAddress chainId priceUsd).
Proof.
  unfold fetchTokenData. cbv zeta.
  apply keeps_bind; [apply laterFor_trans|apply connectWithRetries_laterFor|].
  intros [provider|]; [|apply keeps_throw, laterFor_refl].
  apply (keeps_weaken Spec.quietlyLater); [apply quietlyLater_laterFor|].
  apply keeps_bind; [apply quietlyLater_trans| |intros tokenInfo].
  { apply keeps_try_catch; [apply quietlyLater_trans| |intros; quiet].
    unfold withTimeout.
    apply keeps_bind; [apply quietlyLater_trans|apply getTokenInfo_quiet|].
    intros r. apply keeps_bind; [apply quietlyLater_trans|quiet|].
    intros [|]; quiet. }
  apply keeps_bind; [apply quietlyLater_trans|unfold getBlockNumber; quiet|].
  intros currentBlock.
  apply keeps_bind; [apply quietlyLater_trans| |].
  { intros s.
    destruct (retrieveTransfers_runs provider tokenAddress tokenInfo
                (Z.max 0 (currentBlock - 6500 * 30)) currentBlock s)
      as (recent & s' & Hrun & _ & Hq).
    by rewrite Hrun. }
  intros [recent large].
  apply keeps_bind; [apply quietlyLater_trans|apply addOffMarketSales_quiet|].
  intros md. quiet.
Qed.

(** The stages behind a returned TokenMetrics. *)
Lemma fetchTokenData_stages tokenAddress chainId priceUsd s m s' :
  fetchTokenData net isAddress tokenAddress chainId priceUsd s = (Ok m, s') ->
  exists provider s1 tokenInfo s2 currentBlock s4,
    connectWithRetries net chainId 3 s = (Ok (Some provider), s1)
    /\ withTimeout net (TokenUtils.getTokenInfo net isAddress tokenAddress provider) s1
       = (Ok tokenInfo, s2)
    /\ blockNumberAt net (clock s2) provider = Some currentBlock
    /\ retrieveTransfers net provider tokenAddress tokenInfo
         (Z.max 0 (currentBlock - 6500 * 30)) currentBlock
         (tick (logCall (GetBlockNumber provider) s2))
       = (Ok (Token.recentTransfers m, Token.largeTransfers m), s4)
    /\ addOffMarketSales net (computeMarketData tokenInfo priceUsd) priceUsd
         (Token.largeTransfers m) tokenInfo s4
       = (Ok (Token.marketData m), s')
    /\ Token.tokenInfo m
       = {| Token.address := Token.address tokenInfo;
            Token.name := Token.name tokenInfo;
            Token.symbol := Token.symbol tokenInfo;
            Token.decimals := Token.decimals tokenInfo;
            Token.totalSupply := Token.totalSupply tokenInfo;
            Token.isERC20Compliant := Token.isERC20Compliant tokenInfo;
            Token.chainId := chainId |}.
Proof.
  intros Hrun. unfold fetchTokenData in Hrun. cbv zeta in Hrun.
  unfold bind at 1 in Hrun.
  destruct (connectWithRetries net chainId 3 s) as [[[provider|]|e] s1] eqn:Hconn;
    try done.
  unfold bind at 1, try_catch at 1 in Hrun.
  destruct (withTimeout net _ s1) as [[tokenInfo|e] s2] eqn:Hinfo; [|done].
  unfold bind at 1, try_catch at 1, getBlockNumber in Hrun.
  rewrite remote_run in Hrun.
  destruct (blockNumberAt net (clock s2) provider) as [currentBlock|] eqn:Hhead;
    [|done].
  unfold bind at 1 in Hrun.
  destruct (retrieveTransfers net provider tokenAddress tokenInfo _ currentBlock _)
    as [[[recent large]|e] s4] eqn:Hret; [|done].
  unfold bind at 1 in Hrun.
  destruct (addOffMarketSales net _ priceUsd large tokenInfo s4)
    as [[md|e] s5] eqn:Hmd; [|done].
  unfold ret in Hrun. injection Hrun as <- <-. simpl.
  by exists provider, s1, tokenInfo, s2, currentBlock, s4.
Qed.

End PipelineFrames.

Section PipelineResults.
Import UseTokenData.
Context (net : Remote) (isAddress : string -> bool).

Lemma addOffMarketSales_fields md priceUsd largeTransfers tokenInfo s r s' :
  addOffMarketSales net (Some md) priceUsd largeTransfers tokenInfo s = (Ok r, s') ->
  exists md',
    r = Some md'
    /\ Token.price md' = Token.price md
    /\ Token.marketCap md' = Token.marketCap md
    /\ Token.fullyDilutedCap md' = Token.fullyDilutedCap md
    /\ Token.marketCapDifference md' = Token.marketCapDifference md
    /\ Token.marketCapDifferencePercent md' = Token.marketCapDifferencePercent md
    /\ (largeTransfers = [] -> md' = md /\ s' = s).
Proof.
  unfold addOffMarketSales. intros Hrun.
  destruct priceUsd as [p|]; [|unfold ret in Hrun; injection Hrun as <- <-;
                                by exists md].
  destruct largeTransfers as [|t rest].
  - rewrite andb_false_r in Hrun. unfold ret in Hrun. injection Hrun as <- <-.
    by exists md.
  - destruct (_ && _); [|unfold ret in Hrun; injection Hrun as <- <-;
                          exists md; by repeat split].
    unfold try_catch, bind, ret in Hrun.
    destruct (TokenUtils.analyzeOffMarketSales _ _ _ _ _) as [[off|e] s1];
      injection Hrun as <- <-; eexists; by repeat split.
Qed.

End PipelineResults.

(** X5: in every TokenMetrics the pipeline returns, [recentTransfers] and
    [largeTransfers] are both ordered most recent first. *)
Theorem pipeline_transfers_most_recent_first
    (net : Remote) (isAddress : string -> bool) (tokenAddress : string)
    (chainId : Z) (priceUsd : option float) (s s' : State) (m : Token.TokenMetrics) :
  UseTokenData.fetchTokenData net isAddress tokenAddress chainId priceUsd s = (Ok m, s') ->
  StronglySorted Spec.newerFirst (Token.recentTransfers m)
  /\ StronglySorted Spec.newerFirst (Token.largeTransfers m).
Proof.
  intros Hrun.
  destruct (fetchTokenData_stages net isAddress _ _ _ _ _ _ Hrun)
    as (provider & s1 & tokenInfo & s2 & currentBlock & s4 & _ & _ & _ & Hret & _).
  destruct (retrieveTransfers_runs net provider tokenAddress tokenInfo
              (Z.max 0 (currentBlock - 6500 * 30)) currentBlock
              (tick (logCall (GetBlockNumber provider) s2)))
    as (recent & s5 & Hruns & Hsorted & _).
  rewrite Hruns in Hret. injection Hret as <- <- _.
  split; [exact Hsorted|]. by apply filter_sorted.
Qed.

(** On the healthy endpoint the timestamps come out as 1700110000,
    1700110000, 1700105500. *)
Lemma pipeline_transfers_most_recent_first_healthy :
  exists m s',
    UseTokenData.fetchTokenData Scenario.healthy Scenario.anyAddress Scenario.daiAddress
      1 (Some 2%float) Scenario.fresh = (Ok m, s')
    /\ StronglySorted Spec.newerFirst (Token.recentTransfers m)
    /\ StronglySorted Spec.newerFirst (Token.largeTransfers m).
Proof.
  destruct (UseTokenData.fetchTokenData Scenario.healthy Scenario.anyAddress
              Scenario.daiAddress 1 (Some 2%float) Scenario.fresh)
    as [[m|e] s'] eqn:Hrun; [|vm_compute in Hrun; discriminate].
  exists m, s'. split; [reflexivity|].
  exact (pipeline_transfers_most_recent_first _ _ _ _ _ _ _ _ Hrun).
Defined.

(** X6: whether it returns or throws, a run of the pipeline only moves the
    session forward: the call log grows at its end, blocks already cached
    stay cached unchanged, and of the remembered endpoints only the one of
    the requested network may change. *)
Theorem pipeline_only_adds_to_session
    (net : Remote) (isAddress : string -> bool) (tokenAddress : string)
    (chainId : Z) (priceUsd : option float) (s : State) :
  Spec.laterFor chainId s
    (UseTokenData.fetchTokenData net isAddress tokenAddress chainId priceUsd s).2.
Proof. apply fetchTokenData_laterFor. Qed.



(** X8: market data is present in a returned TokenMetrics exactly when a
    price greater than zero was supplied.  When present it holds that
    price, the market cap computed from the descriptor, and a fully
    diluted cap equal to the market cap (no maximum supply is known to the
    pipeline); without large transfers the off-market figures stay
    absent. *)
Theorem pipeline_market_data_follows_price
    (net : Remote) (isAddress : string -> bool) (tokenAddress : string)
    (chainId : Z) (priceUsd : option float) (s s' : State) (m : Token.TokenMetrics) :
  UseTokenData.fetchTokenData net isAddress tokenAddress chainId priceUsd s = (Ok m, s') ->
  match priceUsd with
  | Some p =>
      if PrimFloat.ltb 0 p then
        exists md,
          Token.marketData m = Some md
          /\ Token.price md = p
          /\ Token.marketCap md
             = TokenUtils.calculateMarketCap (Token.totalSupply (Token.tokenInfo m))
                 (Token.decimals (Token.tokenInfo m)) p
          /\ Token.fullyDilutedCap md = Some (Token.marketCap md)
          /\ (Token.largeTransfers m = [] ->
              Token.offMarketSalesAbove md = None
              /\ Token.offMarketSalesBelow md = None
              /\ Token.offMarketSalesPercentage md = None)
      else Token.marketData m = None
  | None => Token.marketData m = None
  end.
Proof.
  intros Hrun.
  destruct (fetchTokenData_stages net isAddress _ _ _ _ _ _ Hrun)
    as (provider & s1 & tokenInfo & s2 & currentBlock & s4 & _ & _ & _ & _ & Hmd & Hti).
  rewrite Hti. cbn [Token.totalSupply Token.decimals].
  unfold UseTokenData.computeMarketData in Hmd.
  destruct priceUsd as [p|].
  - destruct (PrimFloat.ltb 0 p) eqn:Hp.
    + destruct (addOffMarketSales_fields net _ _ _ _ _ _ _ Hmd)
        as (md & Hsome & Hprice & Hcap & Hfdc & _ & _ & Hnone).
      exists md. split; [done|]. rewrite Hprice, Hcap, Hfdc. simpl.
      split; [done|]. split; [done|]. split; [done|].
      intros Hnil. destruct (Hnone Hnil) as [-> _]. by repeat split.
    + unfold UseTokenData.addOffMarketSales, ret in Hmd. by injection Hmd as <- _.
  - unfold UseTokenData.addOffMarketSales, ret in Hmd. by injection Hmd as <- _.
Qed.

(** With a price of 2 on the healthy endpoint; and with no price. *)
Lemma pipeline_market_data_examples :
  (exists m s' md,
     UseTokenData.fetchTokenData Scenario.healthy Scenario.anyAddress
       Scenario.daiAddress 1 (Some 2%float) Scenario.fresh = (Ok m, s')
     /\ Token.marketData m = Some md
     /\ Token.marketCap md = 2000%float)
  /\ (exists m s',
        UseTokenData.fetchTokenData Scenario.healthy Scenario.anyAddress
          Scenario.daiAddress 1 None Scenario.fresh = (Ok m, s')
        /\ Token.marketData m = None).
Proof.
  split.
  - destruct (UseTokenData.fetchTokenData Scenario.healthy Scenario.anyAddress
                Scenario.daiAddress 1 (Some 2%float) Scenario.fresh)
      as [[m|e] s'] eqn:Hrun; [|vm_compute in Hrun; discriminate].
    pose proof (pipeline_market_data_follows_price _ _ _ _ _ _ _ _ Hrun) as H.
    cbv beta iota in H.
    change (PrimFloat.ltb 0 2) with true in H. cbv iota in H.
    destruct H as (md & Hmd & _ & Hcap & _).
    exists m, s', md. split; [reflexivity|]. split; [exact Hmd|].
    rewrite Hcap.
    assert (Hm : Ok m = (UseTokenData.fetchTokenData Scenario.healthy
                           Scenario.anyAddress Scenario.daiAddress 1 (Some 2%float)
                           Scenario.fresh).1) by (by rewrite Hrun).
    vm_compute in Hm. injection Hm as ->. vm_compute. reflexivity.
  - destruct (UseTokenData.fetchTokenData Scenario.healthy Scenario.anyAddress
                Scenario.daiAddress 1 None Scenario.fresh)
      as [[m|e] s'] eqn:Hrun; [|vm_compute in Hrun; discriminate].
    exists m, s'. split; [reflexivity|].
    exact (pipeline_market_data_follows_price _ _ _ _ _ _ _ _ Hrun).
Defined.

(** X9: the token address is validated only after a connection has been
    established: with an address that [isAddress] rejects, the pipeline
    first connects (probing endpoints), then fails with the descriptor
    error without sending a single request about the token. *)
Theorem pipeline_rejects_invalid_address_after_connecting
    (net : Remote) (isAddress : string -> bool) (tokenAddress : string)
    (chainId : Z) (priceUsd : option float) (s s1 : State) (provider : Provider) :
  isAddress tokenAddress = false ->
  UseTokenData.connectWithRetries net chainId 3 s = (Ok (Some provider), s1) ->
  UseTokenData.fetchTokenData net isAddress tokenAddress chainId priceUsd s
  = (Throw TokenInfoFailed, s1).
Proof.
  intros Hbad Hconn. unfold UseTokenData.fetchTokenData. cbv zeta.
  rewrite (bind_Ok _ _ _ _ _ Hconn).
  unfold bind at 1, try_catch at 1, withTimeout, bind at 1.
  unfold TokenUtils.getTokenInfo, try_catch at 1. rewrite Hbad. reflexivity.
Qed.

(** On the healthy endpoint one probe is sent, and nothing else. *)
Lemma pipeline_rejects_invalid_address_healthy :
  exists s1,
    UseTokenData.fetchTokenData Scenario.healthy Scenario.noAddress "not-an-address"
      1 None Scenario.fresh = (Throw TokenInfoFailed, s1)
    /\ rpcLog s1
       = [GetBlockNumber "https://mainnet.infura.io/v3/9aa3d95b3bc440fa88ea12eaa4456161"].
Proof.
  eexists. split.
  - eapply (pipeline_rejects_invalid_address_after_connecting Scenario.healthy
              Scenario.noAddress "not-an-address" 1 None Scenario.fresh).
    + reflexivity.
    + vm_compute. reflexivity.
  - reflexivity.
Defined.

(** ** The token descriptor *)

Section Descriptor.
Import TokenUtils.
Context (net : Remote) (isAddress : string -> bool).

Lemma getTokenInfo_contract tokenAddress provider s chain code :
  isAddress tokenAddress = true ->
  networkAt net (clock s) provider = Some chain ->
  codeAt net (clock s + 1) provider tokenAddress = Some code ->
  code <> "0x"%string ->
  exists tokenInfo s',
    getTokenInfo net isAddress tokenAddress provider s = (Ok tokenInfo, s')
    /\ Token.address tokenInfo = tokenAddress
    /\ Token.chainId tokenInfo = chain
    /\ Token.name tokenInfo
       = default "Unknown Token"%string
           (callStringAt net (clock s + 2) provider tokenAddress "name")
    /\ Token.symbol tokenInfo
       = default "???"%string
           (callStringAt net (clock s + 3) provider tokenAddress "symbol")
    /\ Token.decimals tokenInfo
       = default 18 (callNumberAt net (clock s + 4) provider tokenAddress "decimals")
    /\ Token.totalSupply tokenInfo
       = default "0"%string
           (Ethers.BigNumber_toString
              <$> callNumberAt net (clock s + 5) provider tokenAddress "totalSupply")
    /\ Token.isERC20Compliant tokenInfo
       = negb (String.eqb (Token.name tokenInfo) "")
         && negb (String.eqb (Token.symbol tokenInfo) "")
         && negb (String.eqb (Token.totalSupply tokenInfo) "")
    /\ clock s' = (clock s + 6)%nat
    /\ rpcLog s'
       = rpcLog s ++ [ GetNetwork provider; GetCode provider tokenAddress;
                       ContractCall provider tokenAddress "name";
                       ContractCall provider tokenAddress "symbol";
                       ContractCall provider tokenAddress "decimals";
                       ContractCall provider tokenAddress "totalSupply" ].
Proof.
  intros Hvalid Hnet Hcode Hcontract.
  replace (clock s + 1)%nat with (S (clock s)) in Hcode by lia.
  replace (clock s + 2)%nat with (S (S (clock s))) by lia.
  replace (clock s + 3)%nat with (S (S (S (clock s)))) by lia.
  replace (clock s + 4)%nat with (S (S (S (S (clock s))))) by lia.
  replace (clock s + 5)%nat with (S (S (S (S (S (clock s)))))) by lia.
  apply String.eqb_neq in Hcontract.
  unfold getTokenInfo, try_catch, bind, getNetwork, getCode, callString, callNumber,
    remote, ret, throw.
  rewrite Hvalid. cbn [negb clock tick logCall]. rewrite Hnet.
  cbn [clock tick logCall]. rewrite Hcode, Hcontract.
  cbn [clock tick logCall].
  destruct (callStringAt net _ provider tokenAddress "name") as [name|];
    cbn [clock tick logCall];
    destruct (callStringAt net _ provider tokenAddress "symbol") as [symbol|];
    cbn [clock tick logCall];
    destruct (callNumberAt net _ provider tokenAddress "decimals") as [decimals|];
    cbn [clock tick logCall];
    destruct (callNumberAt net _ provider tokenAddress "totalSupply") as [supply|];
    cbn [clock tick logCall];
    (eexists _, _; split; [reflexivity|]; simpl;
     repeat split; try reflexivity; try lia; by rewrite <- !app_assoc).
Qed.

Lemma getTokenInfo_no_contract tokenAddress provider s chain :
  isAddress tokenAddress = true ->
  networkAt net (clock s) provider = Some chain ->
  codeAt net (clock s + 1) provider tokenAddress = Some "0x"%string ->
  getTokenInfo net isAddress tokenAddress provider s
  = (Throw TokenInfoError,
     {| clock := clock s + 2;
        rpcLog := rpcLog s ++ [GetNetwork provider; GetCode provider tokenAddress];
        lastSuccessfulRpcByChain := lastSuccessfulRpcByChain s;
        blockCache := blockCache s |}).
Proof.
  intros Hvalid Hnet Hcode.
  replace (clock s + 1)%nat with (S (clock s)) in Hcode by lia.
  unfold getTokenInfo, try_catch, bind, getNetwork, getCode, remote, ret, throw.
  rewrite Hvalid. cbn [negb clock tick logCall]. rewrite Hnet.
  cbn [clock tick logCall]. rewrite Hcode. simpl. f_equal. state_eq.
Qed.

Lemma hasFunction_run {A} (c : Call) (answer : nat -> option A) s :
  hasFunction (remote c answer) s
  = (Ok (bool_decide (is_Some (answer (clock s)))), tick (logCall c s)).
Proof.
  unfold hasFunction, try_catch, bind, ret. rewrite remote_run.
  destruct (answer (clock s)); reflexivity.
Qed.

Lemma checkERC20Compliance_runs tokenAddress provider s :
  exists verdict s',
    checkERC20Compliance net tokenAddress provider s = (Ok verdict, s')
    /\ match codeAt net (clock s) provider tokenAddress with
       | Some code =>
           if String.eqb code "0x" then
             verdict = false
             /\ rpcLog s' = rpcLog s ++ [GetCode provider tokenAddress]
           else
             verdict
             = bool_decide
                 (is_Some (callStringAt net (clock s + 1) provider tokenAddress "name"))
               && bool_decide
                    (is_Some (callStringAt net (clock s + 2) provider tokenAddress
                                "symbol"))
               && bool_decide
                    (is_Some (callNumberAt net (clock s + 3) provider tokenAddress
                                "decimals"))
               && bool_decide
                    (is_Some (callNumberAt net (clock s + 4) provider tokenAddress
                                "totalSupply"))
             /\ rpcLog s'
                = rpcLog s ++ [ GetCode provider tokenAddress;
                                ContractCall provider tokenAddress "name";
                                ContractCall provider tokenAddress "symbol";
                                ContractCall provider tokenAddress "decimals";
                                ContractCall provider tokenAddress "totalSupply" ]
       | None =>
           verdict = false /\ rpcLog s' = rpcLog s ++ [GetCode provider tokenAddress]
       end.
Proof.
  unfold checkERC20Compliance. unfold try_catch at 1, bind at 1, getCode.
  rewrite remote_run.
  destruct (codeAt net (clock s) provider tokenAddress) as [code|];
    [|by eexists _, _].
  destruct (String.eqb code "0x"); [by eexists _, _|].
  unfold callString, callNumber.
  unfold bind at 1. rewrite hasFunction_run.
  unfold bind at 1. rewrite hasFunction_run.
  unfold bind at 1. rewrite hasFunction_run.
  unfold bind at 1. rewrite hasFunction_run.
  cbn [clock tick logCall].
  replace (clock s + 1)%nat with (S (clock s)) by lia.
  replace (clock s + 2)%nat with (S (S (clock s))) by lia.
  replace (clock s + 3)%nat with (S (S (S (clock s)))) by lia.
  replace (clock s + 4)%nat with (S (S (S (S (clock s))))) by lia.
  eexists _, _. split; [reflexivity|]. split; [reflexivity|].
  simpl. by rewrite <- !app_assoc.
Qed.

End Descriptor.

(** X10: for a valid address of a contract whose network and code can be
    read, [getTokenInfo] always returns a descriptor, after exactly six
    remote calls: each of name, symbol, decimals and total supply is the
    contract's answer when its read succeeds and the default ("Unknown
    Token", "???", 18, "0") when it fails; the compliance flag only says
    that name, symbol and supply are non-empty strings. *)
Theorem descriptor_fields_default_when_unreadable
    (net : Remote) (isAddress : string -> bool) (tokenAddress : string)
    (provider : Provider) (s : State) (chain : Z) (code : string) :
  isAddress tokenAddress = true ->
  networkAt net (clock s) provider = Some chain ->
  codeAt net (clock s + 1) provider tokenAddress = Some code ->
  code <> "0x"%string ->
  exists tokenInfo s',
    TokenUtils.getTokenInfo net isAddress tokenAddress provider s = (Ok tokenInfo, s')
    /\ Token.address tokenInfo = tokenAddress
    /\ Token.chainId tokenInfo = chain
    /\ Token.name tokenInfo
       = default "Unknown Token"%string
           (callStringAt net (clock s + 2) provider tokenAddress "name")
    /\ Token.symbol tokenInfo
       = default "???"%string
           (callStringAt net (clock s + 3) provider tokenAddress "symbol")
    /\ Token.decimals tokenInfo
       = default 18 (callNumberAt net (clock s + 4) provider tokenAddress "decimals")
    /\ Token.totalSupply tokenInfo
       = default "0"%string
           (Ethers.BigNumber_toString
              <$> callNumberAt net (clock s + 5) provider tokenAddress "totalSupply")
    /\ Token.isERC20Compliant tokenInfo
       = negb (String.eqb (Token.name tokenInfo) "")
         && negb (String.eqb (Token.symbol tokenInfo) "")
         && negb (String.eqb (Token.totalSupply tokenInfo) "")
    /\ clock s' = (clock s + 6)%nat
    /\ rpcLog s'
       = rpcLog s ++ [ GetNetwork provider; GetCode provider tokenAddress;
                       ContractCall provider tokenAddress "name";
                       ContractCall provider tokenAddress "symbol";
                       ContractCall provider tokenAddress "decimals";
                       ContractCall provider tokenAddress "totalSupply" ].
Proof. apply getTokenInfo_contract. Qed.

(** A contract that answers none of the four reads gets all four defaults. *)
Lemma descriptor_of_bare_contract :
  exists tokenInfo s',
    TokenUtils.getTokenInfo Scenario.bareContract Scenario.anyAddress
      Scenario.daiAddress "rpc" Scenario.fresh = (Ok tokenInfo, s')
    /\ Token.name tokenInfo = "Unknown Token"%string
    /\ Token.symbol tokenInfo = "???"%string
    /\ Token.decimals tokenInfo = 18
    /\ Token.totalSupply tokenInfo = "0"%string.
Proof.
  destruct (descriptor_fields_default_when_unreadable Scenario.bareContract
              Scenario.anyAddress Scenario.daiAddress "rpc" Scenario.fresh 1
              "0x6080604052" eq_refl eq_refl eq_refl ltac:(discriminate))
    as (tokenInfo & s' & Hrun & _ & _ & Hname & Hsymbol & Hdecimals & Hsupply & _).
  exists tokenInfo, s'. by repeat split.
Defined.

(** X11: when there is no code at the address, [getTokenInfo] throws after
    reading the network and the code, and calls no function of the
    contract. *)
Theorem descriptor_requires_contract_code
    (net : Remote) (isAddress : string -> bool) (tokenAddress : string)
    (provider : Provider) (s : State) (chain : Z) :
  isAddress tokenAddress = true ->
  networkAt net (clock s) provider = Some chain ->
  codeAt net (clock s + 1) provider tokenAddress = Some "0x"%string ->
  TokenUtils.getTokenInfo net isAddress tokenAddress provider s
  = (Throw TokenInfoError,
     {| clock := clock s + 2;
        rpcLog := rpcLog s ++ [GetNetwork provider; GetCode provider tokenAddress];
        lastSuccessfulRpcByChain := lastSuccessfulRpcByChain s;
        blockCache := blockCache s |}).
Proof. apply getTokenInfo_no_contract. Qed.

(** An externally owned account. *)
Lemma descriptor_of_plain_account :
  (TokenUtils.getTokenInfo Scenario.noContract Scenario.anyAddress
     Scenario.holder "rpc" Scenario.fresh).1 = Throw TokenInfoError.
Proof.
  by rewrite (descriptor_requires_contract_code Scenario.noContract Scenario.anyAddress
                Scenario.holder "rpc" Scenario.fresh 1 eq_refl eq_refl eq_refl).
Defined.

(** X12: [checkERC20Compliance] never throws.  It answers false after the
    single code read when that read fails or finds no code, without
    probing any function; otherwise it probes name, symbol, decimals and
    totalSupply, all four whatever the earlier probes gave, and answers
    true exactly when all four succeed. *)
Theorem compliance_check_probes_all_four
    (net : Remote) (tokenAddress : string) (provider : Provider) (s : State) :
  exists verdict s',
    TokenUtils.checkERC20Compliance net tokenAddress provider s = (Ok verdict, s')
    /\ match codeAt net (clock s) provider tokenAddress with
       | Some code =>
           if String.eqb code "0x" then
             verdict = false
             /\ rpcLog s' = rpcLog s ++ [GetCode provider tokenAddress]
           else
             verdict
             = bool_decide
                 (is_Some (callStringAt net (clock s + 1) provider tokenAddress "name"))
               && bool_decide
                    (is_Some (callStringAt net (clock s + 2) provider tokenAddress
                                "symbol"))
               && bool_decide
                    (is_Some (callNumberAt net (clock s + 3) provider tokenAddress
                                "decimals"))
               && bool_decide
                    (is_Some (callNumberAt net (clock s + 4) provider tokenAddress
                                "totalSupply"))
             /\ rpcLog s'
                = rpcLog s ++ [ GetCode provider tokenAddress;
                                ContractCall provider tokenAddress "name";
                                ContractCall provider tokenAddress "symbol";
                                ContractCall provider tokenAddress "decimals";
                                ContractCall provider tokenAddress "totalSupply" ]
       | None =>
           verdict = false /\ rpcLog s' = rpcLog s ++ [GetCode provider tokenAddress]
       end.
Proof. apply checkERC20Compliance_runs. Qed.

(** X13: the two compliance verdicts can disagree.  For a contract (valid
    address, readable network and code) none of whose four reads ever
    succeeds, [getTokenInfo] returns a descriptor flagged ERC-20 compliant
    (the defaults it fills in are non-empty), while
    [checkERC20Compliance] answers false. *)
Theorem compliance_verdicts_disagree
    (net : Remote) (isAddress : string -> bool) (tokenAddress : string)
    (provider : Provider) (s : State) (chain : Z) (code : string) :
  isAddress tokenAddress = true ->
  networkAt net (clock s) provider = Some chain ->
  (forall t, codeAt net t provider tokenAddress = Some code) ->
  code <> "0x"%string ->
  (forall t method, callStringAt net t provider tokenAddress method = None) ->
  (forall t method, callNumberAt net t provider tokenAddress method = None) ->
  exists tokenInfo s1 s2,
    TokenUtils.getTokenInfo net isAddress tokenAddress provider s = (Ok tokenInfo, s1)
    /\ Token.isERC20Compliant tokenInfo = true
    /\ TokenUtils.checkERC20Compliance net tokenAddress provider s1 = (Ok false, s2).
Proof.
  intros Hvalid Hnet Hcode Hcontract Hstr Hnum.
  destruct (getTokenInfo_contract net isAddress tokenAddress provider s chain code
              Hvalid Hnet (Hcode _) Hcontract)
    as (tokenInfo & s1 & Hrun & _ & _ & Hname & Hsymbol & _ & Hsupply & Hflag & _).
  rewrite Hstr in Hname, Hsymbol. rewrite Hnum in Hsupply.
  simpl in Hname, Hsymbol, Hsupply.
  rewrite Hname, Hsymbol, Hsupply in Hflag. simpl in Hflag.
  destruct (checkERC20Compliance_runs net tokenAddress provider s1)
    as (verdict & s2 & Hcheck & Hverdict).
  rewrite Hcode in Hverdict. apply String.eqb_neq in Hcontract.
  rewrite Hcontract, !Hstr, !Hnum in Hverdict. destruct Hverdict as [-> _].
  by exists tokenInfo, s1, s2.
Qed.

(** The bare contract of the scenarios. *)
Lemma compliance_verdicts_disagree_bare_contract :
  exists tokenInfo s1 s2,
    TokenUtils.getTokenInfo Scenario.bareContract Scenario.anyAddress
      Scenario.daiAddress "rpc" Scenario.fresh = (Ok tokenInfo, s1)
    /\ Token.isERC20Compliant tokenInfo = true
    /\ TokenUtils.checkERC20Compliance Scenario.bareContract Scenario.daiAddress
         "rpc" s1 = (Ok false, s2).
Proof.
  apply (compliance_verdicts_disagree Scenario.bareContract Scenario.anyAddress
           Scenario.daiAddress "rpc" Scenario.fresh 1 "0x6080604052");
    try reflexivity; try discriminate.
Defined.

(** ** Endpoint selection, continued *)

Section Candidates.
Import UseTokenData.

Lemma elem_of_uniqueFirst (x : string) (l : list string) :
  x ∈ Spec.uniqueFirst l <-> x ∈ l.
Proof.
  induction l as [|y l IH]; simpl; [done|].
  rewrite !elem_of_cons, list_elem_of_filter, IH.
  destruct (decide (x = y)); tauto.
Qed.

Lemma NoDup_uniqueFirst (l : list string) : NoDup (Spec.uniqueFirst l).
Proof.
  induction l as [|y l IH]; simpl; [constructor|].
  constructor; [|by apply NoDup_filter].
  rewrite list_elem_of_filter. tauto.
Qed.

Lemma getRpcUrl_nonempty (chainId : Z) : Networks.getRpcUrl chainId <> ""%string.
Proof.
  unfold Networks.getRpcUrl.
  destruct (List.find _ _) as [c|]; [|discriminate].
  destruct (String.eqb_spec (Networks.rpcUrl c) ""); [discriminate|done].
Qed.

Lemma fallbackUrls_other (chainId : Z) :
  chainId <> 1 -> chainId <> 5 -> chainId <> 11155111 -> fallbackUrls chainId = [].
Proof.
  intros H1 H5 H11. unfold fallbackUrls. repeat case_match; congruence.
Qed.

Lemma fallbackUrls_nonempty (chainId : Z) (url : string) :
  url ∈ fallbackUrls chainId -> url <> ""%string.
Proof.
  destruct (decide (chainId = 1)) as [->|H1];
    [|destruct (decide (chainId = 5)) as [->|H5];
      [|destruct (decide (chainId = 11155111)) as [->|H11];
        [|by rewrite fallbackUrls_other; [intros ?%elem_of_nil|..]]]];
    simpl; rewrite ?elem_of_cons, elem_of_nil; intros H;
    repeat (destruct H as [->|H]; [discriminate|]); done.
Qed.

Lemma getRpcUrl_unknown (chainId : Z) :
  chainId ∉ map Networks.id Networks.SUPPORTED_CHAINS ->
  Networks.getRpcUrl chainId = "https://rpc.ankr.com/eth"%string.
Proof.
  unfold Networks.getRpcUrl. intros Hunknown.
  induction Networks.SUPPORTED_CHAINS as [|c chains IH]; [done|].
  rewrite fmap_cons, not_elem_of_cons in Hunknown. destruct Hunknown as [Hc Hrest].
  cbn [List.find]. destruct (Z.eqb_spec (Networks.id c) chainId); [congruence|].
  by apply IH.
Qed.

Lemma rpcCandidates_facts (lastSuccessful : gmap Z string) (chainId : Z) :
  let rpcUrls := rpcCandidates lastSuccessful chainId in
  NoDup rpcUrls
  /\ Networks.getRpcUrl chainId ∈ rpcUrls
  /\ (forall url, url ∈ fallbackUrls chainId -> url ∈ rpcUrls)
  /\ (forall url, url ∈ rpcUrls ->
        url <> ""%string
        /\ (lastSuccessful !! chainId = Some url
            \/ url = Networks.getRpcUrl chainId
            \/ url ∈ fallbackUrls chainId)).
Proof.
  intros rpcUrls. subst rpcUrls. rewrite rpcCandidates_uniqueFirst.
  split; [apply NoDup_uniqueFirst|].
  unfold Spec.candidateSources.
  split; [rewrite elem_of_uniqueFirst, !elem_of_app, list_elem_of_singleton; tauto|].
  split; [intros url Hurl; rewrite elem_of_uniqueFirst, !elem_of_app; tauto|].
  intros url. rewrite elem_of_uniqueFirst, !elem_of_app, list_elem_of_singleton.
  intros [Hlast|[->|Hfb]].
  - destruct (lastSuccessful !! chainId) as [u|]; [|by apply elem_of_nil in Hlast].
    destruct (String.eqb_spec u ""); [by apply elem_of_nil in Hlast|].
    apply list_elem_of_singleton in Hlast as ->. tauto.
  - split; [apply getRpcUrl_nonempty|tauto].
  - split; [by eapply fallbackUrls_nonempty|tauto].
Qed.

Lemma rpcCandidates_head (lastSuccessful : gmap Z string) (chainId : Z) (url : string) :
  lastSuccessful !! chainId = Some url -> url <> ""%string ->
  exists rest, rpcCandidates lastSuccessful chainId = url :: rest.
Proof.
  intros Hlast Hne. unfold rpcCandidates. rewrite Hlast.
  apply String.eqb_neq in Hne. rewrite Hne.
  rewrite fold_pushUnique. unfold pushUnique at 1.
  destruct (includes [url] (Networks.getRpcUrl chainId)); simpl; eauto.
Qed.

Context (net : Remote).

Lemma connectToFirst_Ok_inv chainId rpcUrls : forall s url s',
  connectToFirst net chainId rpcUrls s = (Ok url, s') ->
  url ∈ rpcUrls
  /\ lastSuccessfulRpcByChain s' = <[chainId := url]> (lastSuccessfulRpcByChain s).
Proof.
  induction rpcUrls as [|u rest IH]; intros s url s' Hrun; simpl in Hrun; [done|].
  unfold bind at 1 in Hrun. rewrite attempt_run in Hrun. unfold getBlockNumber in Hrun.
  rewrite remote_run in Hrun. cbn [fst snd] in Hrun.
  destruct (blockNumberAt net (clock s) u) as [n|].
  - unfold bind, setLastSuccessful, ret in Hrun. injection Hrun as <- <-.
    split; [by left|done].
  - destruct (IH _ _ _ Hrun) as [Hin Hlast]. split; [by right|exact Hlast].
Qed.

Lemma connectWithRetries_exhausted chainId : forall n s,
  (forall t url, blockNumberAt net t url = None) ->
  let rpcUrls := rpcCandidates (lastSuccessfulRpcByChain s) chainId in
  connectWithRetries net chainId (S n) s
  = (Throw ConnectionFailed,
     {| clock := clock s + S n * length rpcUrls;
        rpcLog := rpcLog s
                  ++ concat (replicate (S n) (map GetBlockNumber rpcUrls));
        lastSuccessfulRpcByChain := lastSuccessfulRpcByChain s;
        blockCache := blockCache s |}).
Proof.
  intros n s Hdown. revert s.
  assert (Htry : forall s,
             tryConnectToNetwork net chainId s
             = (Throw AllEndpointsFailed,
                Spec.exhaustedState s
                  (rpcCandidates (lastSuccessfulRpcByChain s) chainId))).
  { intros s. unfold tryConnectToNetwork, bind, get.
    apply connectToFirst_exhausted. intros; apply Hdown. }
  induction n as [|n IH]; intros s rpcUrls; subst rpcUrls.
  - simpl. unfold bind at 1. rewrite attempt_run, Htry.
    simpl. unfold throw. f_equal. state_eq.
  - change (connectWithRetries net chainId (S (S n)) s)
      with (bind (attempt (tryConnectToNetwork net chainId))
              (fun r => match r with
                        | Ok provider => ret (Some provider)
                        | Throw _ =>
                            if (S n =? 0)%nat then throw ConnectionFailed
                            else connectWithRetries net chainId (S n)
                        end) s).
    unfold bind at 1. rewrite attempt_run, Htry.
    cbn [fst snd Nat.eqb]. rewrite IH.
    cbn [Spec.exhaustedState lastSuccessfulRpcByChain clock rpcLog blockCache].
    f_equal. apply State_eq; cbn [clock rpcLog lastSuccessfulRpcByChain blockCache];
      try done; [simpl; lia|].
    rewrite <- app_assoc. f_equal.
Qed.

End Candidates.

(** X14: in one connection attempt the candidates are pairwise distinct,
    so no endpoint is probed twice; the list always contains the network's
    primary endpoint and every configured fallback, and nothing but the
    remembered endpoint, the primary one and the fallbacks; no candidate is
    the empty string. *)
Theorem candidates_distinct_and_complete (lastSuccessful : gmap Z string) (chainId : Z) :
  let rpcUrls := UseTokenData.rpcCandidates lastSuccessful chainId in
  NoDup rpcUrls
  /\ Networks.getRpcUrl chainId ∈ rpcUrls
  /\ (forall url, url ∈ UseTokenData.fallbackUrls chainId -> url ∈ rpcUrls)
  /\ (forall url, url ∈ rpcUrls ->
        url <> ""%string
        /\ (lastSuccessful !! chainId = Some url
            \/ url = Networks.getRpcUrl chainId
            \/ url ∈ UseTokenData.fallbackUrls chainId)).
Proof. apply rpcCandidates_facts. Qed.

(** X15: a network identifier that is not in the table of supported chains
    is not rejected: with no endpoint remembered for it, the only
    candidate is the default endpoint "https://rpc.ankr.com/eth", and when
    that endpoint answers the probe the connection succeeds and the
    endpoint is remembered under the unknown identifier. *)
Theorem unknown_network_uses_default_endpoint
    (net : Remote) (chainId : Z) (s : State) :
  chainId ∉ map Networks.id Networks.SUPPORTED_CHAINS ->
  lastSuccessfulRpcByChain s !! chainId = None ->
  UseTokenData.rpcCandidates (lastSuccessfulRpcByChain s) chainId
  = ["https://rpc.ankr.com/eth"%string]
  /\ (is_Some (blockNumberAt net (clock s) "https://rpc.ankr.com/eth") ->
      UseTokenData.tryConnectToNetwork net chainId s
      = (Ok "https://rpc.ankr.com/eth"%string,
         {| clock := clock s + 1;
            rpcLog := rpcLog s ++ [GetBlockNumber "https://rpc.ankr.com/eth"];
            lastSuccessfulRpcByChain :=
              <[chainId := "https://rpc.ankr.com/eth"%string]>
                (lastSuccessfulRpcByChain s);
            blockCache := blockCache s |})).
Proof.
  intros Hunknown Hnone.
  assert (Hcands : UseTokenData.rpcCandidates (lastSuccessfulRpcByChain s) chainId
                   = ["https://rpc.ankr.com/eth"%string]).
  { unfold UseTokenData.rpcCandidates. rewrite Hnone.
    rewrite (getRpcUrl_unknown chainId Hunknown).
    simpl in Hunknown. rewrite !not_elem_of_cons in Hunknown.
    rewrite fallbackUrls_other by tauto. reflexivity. }
  split; [exact Hcands|]. intros Hup.
  unfold UseTokenData.tryConnectToNetwork, bind, get. rewrite Hcands.
  rewrite (connectToFirst_success net chainId _ s 0 "https://rpc.ankr.com/eth");
    [reflexivity|reflexivity|intros; lia|by rewrite Nat.add_0_r].
Qed.

(** Network 999 on a fresh session. *)
Lemma unknown_network_999 :
  UseTokenData.rpcCandidates (lastSuccessfulRpcByChain Scenario.fresh) 999
  = ["https://rpc.ankr.com/eth"%string].
Proof.
  apply (unknown_network_uses_default_endpoint Scenario.healthy 999 Scenario.fresh).
  - apply (bool_decide_unpack _). vm_compute. reflexivity.
  - reflexivity.
Defined.

(** X16: the endpoint a connection ended on is the first one tried by the
    next connection to the same network: if it still answers, that second
    connection returns it after a single probe and leaves the remembered
    endpoints as they are. *)
Theorem next_connection_starts_with_last_success
    (net : Remote) (chainId : Z) (s s1 : State) (url : string) :
  UseTokenData.tryConnectToNetwork net chainId s = (Ok url, s1) ->
  is_Some (blockNumberAt net (clock s1) url) ->
  UseTokenData.tryConnectToNetwork net chainId s1
  = (Ok url,
     {| clock := clock s1 + 1;
        rpcLog := rpcLog s1 ++ [GetBlockNumber url];
        lastSuccessfulRpcByChain := lastSuccessfulRpcByChain s1;
        blockCache := blockCache s1 |}).
Proof.
  intros Hfirst Hup.
  unfold UseTokenData.tryConnectToNetwork, bind, get in Hfirst.
  destruct (connectToFirst_Ok_inv net chainId _ _ _ _ Hfirst) as [Hin Hlast].
  destruct (rpcCandidates_facts (lastSuccessfulRpcByChain s) chainId)
    as (_ & _ & _ & Hsrc).
  destruct (Hsrc url Hin) as [Hne _].
  destruct (rpcCandidates_head (lastSuccessfulRpcByChain s1) chainId url) as [rest Hcands];
    [rewrite Hlast; apply lookup_insert_eq|exact Hne|].
  unfold UseTokenData.tryConnectToNetwork, bind, get. rewrite Hcands.
  rewrite (connectToFirst_success net chainId _ s1 0 url);
    [|reflexivity|intros; lia|by rewrite Nat.add_0_r].
  f_equal. apply State_eq; simpl; try done.
  rewrite Hlast. apply insert_insert_eq.
Qed.

(** Connecting twice to the healthy endpoint. *)
Lemma next_connection_healthy :
  exists s1 s2,
    UseTokenData.tryConnectToNetwork Scenario.healthy 1 Scenario.fresh
    = (Ok "https://mainnet.infura.io/v3/9aa3d95b3bc440fa88ea12eaa4456161"%string, s1)
    /\ UseTokenData.tryConnectToNetwork Scenario.healthy 1 s1
       = (Ok "https://mainnet.infura.io/v3/9aa3d95b3bc440fa88ea12eaa4456161"%string, s2)
    /\ length (rpcLog s2) = 2%nat.
Proof.
  eexists _, _. split; [vm_compute; reflexivity|]. split.
  - eapply (next_connection_starts_with_last_success Scenario.healthy 1 Scenario.fresh).
    + vm_compute. reflexivity.
    + vm_compute. eauto.
  - reflexivity.
Defined.

(** X17: when no endpoint answers any probe, the pipeline gives up with
    the connection error after three rounds over the same candidate list,
    each round probing every candidate once, in order; the remembered
    endpoints and the block cache are left as they were. *)
Theorem pipeline_gives_up_after_three_rounds
    (net : Remote) (isAddress : string -> bool) (tokenAddress : string)
    (chainId : Z) (priceUsd : option float) (s : State) :
  (forall t url, blockNumberAt net t url = None) ->
  let rpcUrls := UseTokenData.rpcCandidates (lastSuccessfulRpcByChain s) chainId in
  UseTokenData.fetchTokenData net isAddress tokenAddress chainId priceUsd s
  = (Throw ConnectionFailed,
     {| clock := clock s + 3 * length rpcUrls;
        rpcLog := rpcLog s ++ concat (replicate 3 (map GetBlockNumber rpcUrls));
        lastSuccessfulRpcByChain := lastSuccessfulRpcByChain s;
        blockCache := blockCache s |}).
Proof.
  intros Hdown rpcUrls. unfold UseTokenData.fetchTokenData. cbv zeta.
  apply bind_Throw. by apply connectWithRetries_exhausted.
Qed.

(** Five mainnet candidates, fifteen probes. *)
Lemma pipeline_gives_up_unreachable :
  let run := UseTokenData.fetchTokenData Scenario.unreachable Scenario.anyAddress
               Scenario.daiAddress 1 None Scenario.fresh in
  run.1 = Throw ConnectionFailed /\ length (rpcLog run.2) = 15%nat.
Proof.
  intros run. subst run.
  rewrite (pipeline_gives_up_after_three_rounds Scenario.unreachable Scenario.anyAddress
             Scenario.daiAddress 1 None Scenario.fresh (fun _ _ => eq_refl)).
  split; reflexivity.
Defined.

(** ** The event scan, continued *)

Section ScanTolerance.
Import UseTokenData.
Context (net : Remote).

Lemma scanChunks_below_cap provider tokenAddress chunks : forall allEvents s,
  (length (allEvents
           ++ concat (Spec.chunkReplies net provider tokenAddress (clock s) chunks))
   <= 2000)%nat ->
  scanChunks net provider tokenAddress chunks allEvents s
  = (Ok (allEvents
         ++ concat (Spec.chunkReplies net provider tokenAddress (clock s) chunks)),
     {| clock := clock s + length chunks;
        rpcLog := rpcLog s ++ map (Spec.chunkQuery provider tokenAddress) chunks;
        lastSuccessfulRpcByChain := lastSuccessfulRpcByChain s;
        blockCache := blockCache s |}).
Proof.
  induction chunks as [|[chunkStart chunkEnd] rest IH]; intros allEvents s Hcap; simpl.
  - unfold ret. rewrite app_nil_r. f_equal. state_eq.
  - simpl in Hcap. unfold bind at 1. rewrite attempt_run. unfold queryFilter.
    rewrite remote_run. cbn [fst snd].
    destruct (logsAt net (clock s) provider tokenAddress chunkStart chunkEnd)
      as [events|]; simpl in Hcap.
    + rewrite app_assoc in Hcap.
      destruct (Nat.ltb_spec 2000 (length (allEvents ++ events))) as [Hover|_].
      { rewrite length_app in Hcap. lia. }
      rewrite IH by exact Hcap. cbn [clock tick logCall].
      rewrite <- app_assoc. f_equal. state_eq.
    + rewrite IH by exact Hcap. cbn [clock tick logCall]. f_equal. state_eq.
Qed.

End ScanTolerance.

(** X18: a failed chunk query does not abort the scan.  As long as the
    events collected stay within 2000, every chunk is queried once, in
    order, and the result is the events of the successful queries in chunk
    order, a failed query contributing nothing. *)
Theorem scan_skips_failed_chunks
    (net : Remote) (provider : Provider) (tokenAddress : string)
    (chunks : list (Z * Z)) (s : State) :
  let replies := Spec.chunkReplies net provider tokenAddress (clock s) chunks in
  (length (concat replies) <= 2000)%nat ->
  UseTokenData.scanChunks net provider tokenAddress chunks [] s
  = (Ok (concat replies),
     {| clock := clock s + length chunks;
        rpcLog := rpcLog s ++ map (Spec.chunkQuery provider tokenAddress) chunks;
        lastSuccessfulRpcByChain := lastSuccessfulRpcByChain s;
        blockCache := blockCache s |}).
Proof.
  intros replies Hcap.
  exact (scanChunks_below_cap net provider tokenAddress chunks [] s Hcap).
Qed.

(** Three chunks, the second of which times out: the result is the event
    of the first chunk followed by that of the third. *)
Lemma scan_skips_second_chunk :
  let run := UseTokenData.scanChunks Scenario.flaky "rpc" "0xToken"
               (UseTokenData.chunkRanges 25000 10000 0) [] Scenario.fresh in
  run.1 = Ok [ Scenario.transferEvent 0 Scenario.holder 1;
               Scenario.transferEvent 20000 Scenario.holder 1 ]
  /\ rpcLog run.2 = [ QueryFilter "rpc" "0xToken" 0 9999;
                      QueryFilter "rpc" "0xToken" 10000 19999;
                      QueryFilter "rpc" "0xToken" 20000 25000 ].
Proof.
  intros run. subst run.
  rewrite (scan_skips_failed_chunks Scenario.flaky "rpc" "0xToken"
             (UseTokenData.chunkRanges 25000 10000 0) Scenario.fresh).
  - vm_compute. split; reflexivity.
  - vm_compute. lia.
Defined.

(** ** Chunked scanning, continued *)

Section ChunkCoverage.

Lemma tiles_bounds (chunks : list (Z * Z)) : forall a e,
  Spec.tiles a e chunks ->
  a <= e + 1
  /\ forall chunk, chunk ∈ chunks -> a <= chunk.1 /\ chunk.1 <= chunk.2 /\ chunk.2 <= e.
Proof.
  induction chunks as [|[chunkStart chunkEnd] rest IH]; intros a e Htiles; simpl in *.
  - split; [lia|]. intros chunk Hin. by apply elem_of_nil in Hin.
  - destruct Htiles as (-> & Hle & Hrest).
    destruct (IH _ _ Hrest) as [Hbound Hall]. split; [lia|].
    intros chunk [->|Hin]%elem_of_cons; simpl; [lia|].
    destruct (Hall chunk Hin) as (? & ? & ?). lia.
Qed.

Lemma tiles_cover (chunks : list (Z * Z)) : forall a e x,
  Spec.tiles a e chunks -> a <= x <= e ->
  exists chunk, chunk ∈ chunks /\ Spec.inChunk x chunk.
Proof.
  induction chunks as [|[chunkStart chunkEnd] rest IH]; intros a e x Htiles Hx;
    simpl in *; [lia|].
  destruct Htiles as (-> & Hle & Hrest).
  destruct (decide (x <= chunkEnd)) as [Hin|Hout].
  - exists (a, chunkEnd). split; [by left|]. unfold Spec.inChunk. simpl. lia.
  - destruct (IH (chunkEnd + 1) e x Hrest ltac:(lia)) as (chunk & Hin & Hx').
    exists chunk. split; [by right|done].
Qed.

Lemma tiles_unique (chunks : list (Z * Z)) : forall a e x i j ci cj,
  Spec.tiles a e chunks ->
  chunks !! i = Some ci -> chunks !! j = Some cj ->
  Spec.inChunk x ci -> Spec.inChunk x cj -> i = j.
Proof.
  induction chunks as [|[chunkStart chunkEnd] rest IH];
    intros a e x i j ci cj Htiles Hi Hj Hxi Hxj; simpl in *; [done|].
  destruct Htiles as (-> & Hle & Hrest).
  destruct (tiles_bounds rest _ _ Hrest) as [_ Hall].
  unfold Spec.inChunk in *.
  destruct i as [|i], j as [|j]; simpl in *.
  - done.
  - injection Hi as <-. apply list_elem_of_lookup_2 in Hj.
    destruct (Hall cj Hj) as (? & ? & ?). simpl in *. lia.
  - injection Hj as <-. apply list_elem_of_lookup_2 in Hi.
    destruct (Hall ci Hi) as (? & ? & ?). simpl in *. lia.
  - f_equal. by eapply (IH _ _ x i j ci cj).
Qed.

Lemma chunkRanges_empty (a b : Z) (c : positive) : b <= a -> UseTokenData.chunkRanges b c a = [].
Proof.
  intros Hle. rewrite chunkRanges_unfold. destruct (decide (a < b)); [lia|done].
Qed.

Lemma chunkRanges_count (a b : Z) (c : positive) :
  a <= b -> Z.of_nat (length (UseTokenData.chunkRanges b c a)) * Z.pos c < b - a + Z.pos c.
Proof.
  remember (Z.to_nat (b - a)) as n eqn:Hn. revert a Hn.
  induction n as [n IH] using lt_wf_ind. intros a Hn Hab.
  rewrite chunkRanges_unfold. destruct (decide (a < b)) as [Hlt|Hge]; [|simpl; lia].
  cbn [length]. rewrite Nat2Z.inj_succ.
  destruct (decide (a + Z.pos c <= b)) as [Hfull|Hlast].
  - pose proof (IH (Z.to_nat (b - (a + Z.pos c))) ltac:(lia) (a + Z.pos c)
                  eq_refl Hfull). lia.
  - rewrite chunkRanges_empty by lia. simpl. lia.
Qed.

Lemma chunkRanges_sizes (b : Z) (c : positive) : forall a chunk,
  chunk ∈ UseTokenData.chunkRanges b c a ->
  a <= chunk.1 /\ chunk.1 <= chunk.2 /\ chunk.2 <= b /\ chunk.2 - chunk.1 + 1 <= Z.pos c.
Proof.
  intros a. remember (Z.to_nat (b - a)) as n eqn:Hn. revert a Hn.
  induction n as [n IH] using lt_wf_ind. intros a Hn chunk.
  rewrite chunkRanges_unfold. destruct (decide (a < b)) as [Hlt|Hge];
    [|by intros ?%elem_of_nil].
  intros [->|Hin]%elem_of_cons; simpl; [lia|].
  destruct (IH (Z.to_nat (b - (a + Z.pos c))) ltac:(lia) (a + Z.pos c) eq_refl chunk Hin)
    as (? & ? & ? & ?). lia.
Qed.

End ChunkCoverage.

(** X19: for a range [[a, b]] with [a <= b] and any chunk size [c], the
    chunks partition the blocks from [a] up to [e], where [e] is [b] when
    [b - a] is not a multiple of [c] and [b - 1] when it is: a block lies
    in some chunk exactly when it is in [[a, e]], and then in one chunk
    only. *)
Theorem chunks_partition_scanned_blocks (a b : Z) (c : positive) :
  a <= b ->
  let e := if (b - a) mod Z.pos c =? 0 then b - 1 else b in
  let chunks := UseTokenData.chunkRanges b c a in
  forall x,
    (a <= x <= e <-> exists chunk, chunk ∈ chunks /\ Spec.inChunk x chunk)
    /\ (forall i j ci cj,
          chunks !! i = Some ci -> chunks !! j = Some cj ->
          Spec.inChunk x ci -> Spec.inChunk x cj -> i = j).
Proof.
  intros Hab e chunks x. pose proof (chunkRanges_tiles a b c Hab) as Htiles.
  fold e in Htiles. fold chunks in Htiles. split; [split|].
  - intros Hx. by eapply tiles_cover.
  - intros (chunk & Hin & Hx). destruct (tiles_bounds _ _ _ Htiles) as [_ Hall].
    destruct (Hall chunk Hin) as (? & ? & ?). unfold Spec.inChunk in Hx. lia.
  - intros i j ci cj. by eapply tiles_unique.
Qed.

(** Blocks 0..25 in chunks of 10: block 25 lies in a chunk, block 26 in
    none. *)
Lemma chunks_partition_0_25 :
  (exists chunk, chunk ∈ UseTokenData.chunkRanges 25 10 0 /\ Spec.inChunk 25 chunk)
  /\ ~ (exists chunk, chunk ∈ UseTokenData.chunkRanges 25 10 0 /\ Spec.inChunk 26 chunk).
Proof.
  pose proof (chunks_partition_scanned_blocks 0 25 10 ltac:(lia)) as H.
  cbv zeta in H. split.
  - apply (proj1 (H 25)). vm_compute. split; discriminate.
  - intros Hin. apply (proj1 (H 26)) in Hin. vm_compute in Hin.
    destruct Hin as [_ Hin]. by apply Hin.
Defined.

(** X20: whatever the head block number, the pipeline's scan range (the
    last 195000 blocks, or everything from block 0) is cut into at most 20
    chunks, each inside the range and of at most 10000 blocks. *)
Theorem pipeline_scans_at_most_twenty_chunks (currentBlock : Z) :
  let fromBlock := Z.max 0 (currentBlock - 6500 * 30) in
  let chunks := UseTokenData.chunkRanges currentBlock 10000 fromBlock in
  (length chunks <= 20)%nat
  /\ forall chunk, chunk ∈ chunks ->
       fromBlock <= chunk.1 /\ chunk.1 <= chunk.2 /\ chunk.2 <= currentBlock
       /\ chunk.2 - chunk.1 + 1 <= 10000.
Proof.
  intros fromBlock chunks. split; [|apply chunkRanges_sizes].
  subst chunks. destruct (decide (fromBlock <= currentBlock)) as [Hle|Hgt].
  - pose proof (chunkRanges_count fromBlock currentBlock 10000 Hle). subst fromBlock. lia.
  - rewrite chunkRanges_empty by lia. simpl. lia.
Qed.

(** ** The standalone classifier, continued *)



(** ** Display of addresses *)

Section FormatAddress.

Lemma length_substring (s : string) : forall n m,
  (n + m <= String.length s)%nat -> String.length (String.substring n m s) = m.
Proof.
  induction s as [|c s IH]; intros [|n] [|m] H; simpl in *; try lia.
  - by rewrite (IH 0%nat m) by lia.
  - apply IH. lia.
  - apply IH. lia.
Qed.

Lemma formatAddress_long (address : string) :
  (10 <= String.length address)%nat ->
  exists c1 c2 c3 c4 c5 c6 d1 d2 d3 d4,
    String.substring 0 6 address
    = String c1 (String c2 (String c3 (String c4 (String c5 (String c6 "")))))
    /\ String.substring (String.length address - 4) 4 address
       = String d1 (String d2 (String d3 (String d4 "")))
    /\ TokenUtils.formatAddress address
       = String c1 (String c2 (String c3 (String c4 (String c5 (String c6
           (String "." (String "." (String "."
              (String d1 (String d2 (String d3 (String d4 "")))))))))))).
Proof.
  intros Hlen.
  pose proof (length_substring address 0 6 ltac:(lia)) as Hp.
  pose proof (length_substring address (String.length address - 4) 4 ltac:(lia)) as Hq.
  unfold TokenUtils.formatAddress.
  replace (String.eqb address "") with false
    by (destruct address; [simpl in Hlen; lia|reflexivity]).
  replace (String.length address <? 10)%nat with false
    by (symmetry; apply Nat.ltb_ge; lia).
  cbn [orb].
  destruct (String.substring 0 6 address) as [|c1 [|c2 [|c3 [|c4 [|c5 [|c6 [|? ?]]]]]]];
    try discriminate.
  destruct (String.substring (String.length address - 4) 4 address)
    as [|d1 [|d2 [|d3 [|d4 [|? ?]]]]]; try discriminate.
  by exists c1, c2, c3, c4, c5, c6, d1, d2, d3, d4.
Qed.

End FormatAddress.

(** X22: [formatAddress] returns an address of fewer than ten characters
    unchanged; a longer one becomes thirteen characters: its first six,
    three dots, its last four.  Shortening is idempotent: a shortened
    address is shortened to itself. *)
Theorem format_address_idempotent (address : string) :
  ((String.length address < 10)%nat -> TokenUtils.formatAddress address = address)
  /\ ((10 <= String.length address)%nat ->
      String.length (TokenUtils.formatAddress address) = 13%nat
      /\ TokenUtils.formatAddress address
         = String.substring 0 6 address
           +:+ "..." +:+ String.substring (String.length address - 4) 4 address)
  /\ TokenUtils.formatAddress (TokenUtils.formatAddress address)
     = TokenUtils.formatAddress address.
Proof.
  split; [|split].
  - intros Hshort. unfold TokenUtils.formatAddress.
    apply Nat.ltb_lt in Hshort. rewrite Hshort. by rewrite orb_true_r.
  - intros Hlong.
    destruct (formatAddress_long address Hlong)
      as (c1 & c2 & c3 & c4 & c5 & c6 & d1 & d2 & d3 & d4 & Hp & Hq & ->).
    rewrite Hp, Hq. split; reflexivity.
  - destruct (Nat.lt_ge_cases (String.length address) 10) as [Hshort|Hlong].
    + unfold TokenUtils.formatAddress at 2.
      apply Nat.ltb_lt in Hshort. rewrite Hshort, orb_true_r. reflexivity.
    + destruct (formatAddress_long address Hlong)
        as (c1 & c2 & c3 & c4 & c5 & c6 & d1 & d2 & d3 & d4 & _ & _ & ->).
      reflexivity.
Qed.
